(** * filehappy: the spendable workflow, [process_excel_workflow]

    A shallow embedding of [excel_workflow_script_v2.py] and the properties
    of its five stages: validation, wide-to-long expansion, location
    matching, min/max removal and finalisation.

    Conventions of the embedding.
    - A pandas DataFrame is a list of rows (a record per row) together
      with the header it was read with; the embedding starts after
      [pd.read_csv], at Step 2 of the script.  The names of a header are
      taken to be distinct after trimming.
    - A missing cell (NaN) is [None].  The text columns (Country, region,
      Currency and the three columns of the mapping) hold [option string],
      the numeric columns hold [option Q]: every finite binary64 value is
      a rational.  The rounding of [Series.round(2)] is a parameter
      [round2] of the development; [round_half_even] is one such function.
    - [print] is modelled for the two validation warnings only.
    - Strings are sequences of bytes; white space, digits and letters are
      the ASCII ones. *)

From Stdlib Require Import String Ascii List Bool Arith ZArith QArith Lia.
From Stdlib Require Import Qround Permutation Sorted DecimalString.
From Stdlib Require Import DecimalPos.
Import ListNotations.

Close Scope Q_scope.
Open Scope string_scope.
Open Scope list_scope.

(* ================================================================ *)
(** * Python and pandas primitives *)
(* ================================================================ *)

(** [Series.fillna(d)] on one cell. *)
Definition fillna {A : Type} (d : A) (o : option A) : A :=
  match o with
  | Some x => x
  | None => d
  end.

(** [Series.notna()] and [Series.isna()] on one cell. *)
Definition notna {A : Type} (o : option A) : bool :=
  match o with
  | Some _ => true
  | None => false
  end.

Definition isna {A : Type} (o : option A) : bool := negb (notna o).

(** [col in df.columns]. *)
Definition has_column (col : string) (columns : list string) : bool :=
  existsb (String.eqb col) columns.

(** Comparison of a text cell with a literal, [series == 'lit']: a
    missing cell compares unequal. *)
Definition cell_eqb (o : option string) (lit : string) : bool :=
  match o with
  | Some s => String.eqb s lit
  | None => false
  end.

(** Equality of two join keys in [pd.merge]: two missing keys match each
    other. *)
Definition key_eqb (a b : option string) : bool :=
  match a, b with
  | Some x, Some y => String.eqb x y
  | None, None => true
  | _, _ => false
  end.

(** [a + b] on two text cells: missing when either side is missing. *)
Definition str_add (a : option string) (b : string) : option string :=
  match a with
  | Some x => Some (x ++ b)%string
  | None => None
  end.

(** [str(x)] of a text cell; a missing cell is the float [nan]. *)
Definition py_str (o : option string) : string := fillna "nan" o.

(** [str(n)] of a Python [int]. *)
Definition str_of_int (n : Z) : string := NilZero.string_of_int (Z.to_int n).

(** ** [str.strip()] *)

(** The ASCII characters for which [str.isspace] holds. *)
Definition is_space (c : ascii) : bool :=
  let n := nat_of_ascii c in
  (((9 <=? n) && (n <=? 13)) || ((28 <=? n) && (n <=? 32)))%nat.

Fixpoint lstrip (s : string) : string :=
  match s with
  | EmptyString => EmptyString
  | String c s' => if is_space c then lstrip s' else s
  end.

Fixpoint rstrip (s : string) : string :=
  match s with
  | EmptyString => EmptyString
  | String c s' =>
      match rstrip s' with
      | EmptyString => if is_space c then EmptyString else String c EmptyString
      | t => String c t
      end
  end.

Definition strip (s : string) : string := rstrip (lstrip s).

(** ** [str.upper()], on ASCII letters *)

Definition upper_ascii (c : ascii) : ascii :=
  let n := nat_of_ascii c in
  if ((97 <=? n) && (n <=? 122))%nat then ascii_of_nat (n - 32) else c.

Fixpoint upper (s : string) : string :=
  match s with
  | EmptyString => EmptyString
  | String c s' => String (upper_ascii c) (upper s')
  end.

(** ** The regular expression [\d+$]

    On a string that does not end in a newline, [\d+$] matches the
    maximal run of digits that ends the string, if there is one. *)

Definition is_digit (c : ascii) : bool :=
  let n := nat_of_ascii c in ((48 <=? n) && (n <=? 57))%nat.

Fixpoint all_digits (s : string) : bool :=
  match s with
  | EmptyString => true
  | String c s' => is_digit c && all_digits s'
  end.

(** [re.search(r'(\d+)$', s)]: the leftmost position from which the rest
    of the string is a non-empty run of digits. *)
Fixpoint search_trailing_digits (s : string) : option string :=
  match s with
  | EmptyString => None
  | String c s' => if all_digits s then Some s else search_trailing_digits s'
  end.

(** [s.str.replace(r'\d+$', '', regex=True)]. *)
Fixpoint remove_trailing_digits (s : string) : string :=
  match s with
  | EmptyString => EmptyString
  | String c s' => if all_digits s then EmptyString
                   else String c (remove_trailing_digits s')
  end.

(** ** [DataFrame.sort_values] on several columns: a stable sort *)

Section Sort.
Context {A : Type}.
Variable le : A -> A -> bool.

Fixpoint insert_sorted (x : A) (l : list A) : list A :=
  match l with
  | [] => [x]
  | y :: t => if le x y then x :: y :: t else y :: insert_sorted x t
  end.

Definition sort_values (l : list A) : list A :=
  fold_right insert_sorted [] l.
End Sort.

(** Order of two text cells; [na_first] says where missing cells go. *)
Definition compare_cell (na_first : bool) (a b : option string) : comparison :=
  match a, b with
  | None, None => Eq
  | None, Some _ => if na_first then Lt else Gt
  | Some _, None => if na_first then Gt else Lt
  | Some x, Some y => String.compare x y
  end.

(** Lexicographic combination of column orders. *)
Definition then_by (c1 c2 : comparison) : comparison :=
  match c1 with
  | Eq => c2
  | _ => c1
  end.

Definition is_le (c : comparison) : bool :=
  match c with
  | Gt => false
  | _ => true
  end.

(* ================================================================ *)
(** * Data model *)
(* ================================================================ *)

(** [raw_data]: one row per country and region, with the identifier
    columns as fields and the family-status value columns by name. *)
Module Raw.
Record row := {
  Country : option string;
  region : option string;
  Currency : option string;
  GrossFrom : option Q;
  GrossTo : option Q;
  value : string -> option Q
}.
Record table := {
  columns : list string;
  rows : list row
}.
End Raw.

(** [location_data]. *)
Module Mapping.
Record row := {
  Mercer_Location_Concatenation : option string;
  location_uuid : option string;
  location_type : option string
}.
Record table := {
  columns : list string;
  rows : list row
}.
End Mapping.

(** [long_data], with the columns added by Steps 4 and 5. *)
Module Long.
Record row := {
  Country : option string;
  region : option string;
  Currency : option string;
  GrossFrom : option Q;
  GrossTo : option Q;
  family_status : string;
  cost : option Q;
  region_clean : string;
  location_key : option string;
  is_XYNA : bool
}.
End Long.

(** [merged_data]: the long row and the three columns of the mapping. *)
Module Merged.
Record row := {
  Country : option string;
  region : option string;
  Currency : option string;
  GrossFrom : option Q;
  GrossTo : option Q;
  family_status : string;
  cost : option Q;
  region_clean : string;
  location_key : option string;
  is_XYNA : bool;
  Mercer_Location_Concatenation : option string;
  location_uuid : option string;
  location_type : option string
}.

Definition set_GrossFrom (v : option Q) (m : row) : row :=
  {| Country := Country m; region := region m; Currency := Currency m;
     GrossFrom := v; GrossTo := GrossTo m;
     family_status := family_status m; cost := cost m;
     region_clean := region_clean m; location_key := location_key m;
     is_XYNA := is_XYNA m;
     Mercer_Location_Concatenation := Mercer_Location_Concatenation m;
     location_uuid := location_uuid m; location_type := location_type m |}.

Definition set_GrossTo (v : option Q) (m : row) : row :=
  {| Country := Country m; region := region m; Currency := Currency m;
     GrossFrom := GrossFrom m; GrossTo := v;
     family_status := family_status m; cost := cost m;
     region_clean := region_clean m; location_key := location_key m;
     is_XYNA := is_XYNA m;
     Mercer_Location_Concatenation := Mercer_Location_Concatenation m;
     location_uuid := location_uuid m; location_type := location_type m |}.

Definition set_location (uuid type : option string) (m : row) : row :=
  {| Country := Country m; region := region m; Currency := Currency m;
     GrossFrom := GrossFrom m; GrossTo := GrossTo m;
     family_status := family_status m; cost := cost m;
     region_clean := region_clean m; location_key := location_key m;
     is_XYNA := is_XYNA m;
     Mercer_Location_Concatenation := Mercer_Location_Concatenation m;
     location_uuid := uuid; location_type := type |}.
End Merged.

(** [final_output] of Step 8 before the columns are selected: the merged
    row, with its location columns overwritten for XYNA rows, and the six
    derived columns. *)
Module Wide.
Record row := {
  base : Merged.row;
  maritalStatus : string;
  numberOfChildren : string;
  serviceType : string;
  userNotes : string;
  validFromDate : string;
  validToDate : string
}.

Definition set_numberOfChildren (v : string) (w : row) : row :=
  {| base := base w; maritalStatus := maritalStatus w;
     numberOfChildren := v; serviceType := serviceType w;
     userNotes := userNotes w; validFromDate := validFromDate w;
     validToDate := validToDate w |}.
End Wide.

(** [final_output] as returned. *)
Module Final.
Record row := {
  locationUuid : option string;
  locationType : option string;
  grossFrom : option Q;
  grossTo : option Q;
  maritalStatus : string;
  numberOfChildren : string;
  cost : option Q;
  currency : option string;
  serviceType : string;
  validFromDate : string;
  validToDate : string;
  userNotes : string
}.
End Final.

(** [missing_output] as returned. *)
Module Missing.
Record row := {
  Country : option string;
  region : option string;
  location_key : option string;
  family_status : string;
  cost : option Q
}.
End Missing.

(** The two warnings of Step 2. *)
Inductive message :=
| Warning_missing_raw (missing_raw : list string)
| Warning_missing_mapping (missing_mapping : list string).

(** Exceptions that leave [process_excel_workflow]. *)
Inductive exn :=
| KeyError     (* raw_data[id_vars + [source_col]], a column is absent *)
| ValueError.  (* pd.concat([]), no objects to concatenate *)

(** What a call produces: [return None, None], an exception, or
    [return missing_output, final_output]. *)
Inductive outcome :=
| NoOutput
| Raised (e : exn)
| Returned (missing_output : list Missing.row) (final_output : list Final.row).

(* ================================================================ *)
(** * Step 2: validation *)
(* ================================================================ *)

Definition required_cols_raw : list string :=
  ["Country"; "region"; "Currency"; "GrossFrom"; "GrossTo";
   "Single"; "Married"; "Married1"; "Married2"; "Married3"; "Married4";
   "Married5"].

Definition required_cols_mapping : list string :=
  ["Mercer Location Concatenation"; "location_uuid"; "location_type"].

(** [[col for col in required if col not in df.columns]]. *)
Definition missing_cols (required columns : list string) : list string :=
  filter (fun col => negb (has_column col columns)) required.

(** [df.columns.str.strip()]. *)
Definition clean_columns (columns : list string) : list string :=
  map strip columns.

(* ================================================================ *)
(** * Steps 3 to 5: expansion and location keys *)
(* ================================================================ *)

Definition id_vars : list string :=
  ["Country"; "region"; "Currency"; "GrossFrom"; "GrossTo"].

(** The dictionary [family_status_mapping], in insertion order. *)
Definition family_status_mapping : list (string * string) :=
  [("Single", "Single");
   ("Single1", "Married");
   ("Single2", "Married1");
   ("Single3", "Married2");
   ("Single4", "Married3");
   ("Single5", "Married4");
   ("Married", "Married");
   ("Married1", "Married1");
   ("Married2", "Married2");
   ("Married3", "Married3");
   ("Married4", "Married4");
   ("Married5", "Married5")].

(** One row of [temp_df] for the entry [(family_status, source_col)],
    with [region_clean], [location_key] and [is_XYNA] of Steps 4 and 5. *)
Definition long_row (family_status source_col : string) (r : Raw.row)
  : Long.row :=
  let region_clean := fillna "NA" (Raw.region r) in
  let location_key := str_add (Raw.Country r) region_clean in
  {| Long.Country := Raw.Country r;
     Long.region := Raw.region r;
     Long.Currency := Raw.Currency r;
     Long.GrossFrom := Raw.GrossFrom r;
     Long.GrossTo := Raw.GrossTo r;
     Long.family_status := family_status;
     Long.cost := Raw.value r source_col;
     Long.region_clean := region_clean;
     Long.location_key := location_key;
     Long.is_XYNA := cell_eqb location_key "XYNA" |}.

(** The entries of the dictionary whose source column is in the table:
    the blocks of [long_data_list]. *)
Definition present_entries (columns : list string) : list (string * string) :=
  filter (fun e => has_column (snd e) columns) family_status_mapping.

(** [pd.concat(long_data_list, ignore_index=True)] with the key columns:
    one block per present entry, each block the raw rows in order. *)
Definition long_data (columns : list string) (rows : list Raw.row)
  : list Long.row :=
  flat_map (fun e => map (long_row (fst e) (snd e)) rows)
           (present_entries columns).

(** The loop of Step 3 and the [pd.concat] after it: an identifier column
    that is absent raises at the first block, and no block at all raises
    in [pd.concat]. *)
Definition expand (columns : list string) (rows : list Raw.row)
  : exn + list Long.row :=
  match present_entries columns with
  | [] => inl ValueError
  | _ :: _ =>
      if forallb (fun c => has_column c columns) id_vars
      then inr (long_data columns rows)
      else inl KeyError
  end.

(** [pd.merge(long_data, location_data[[...]], left_on='location_key',
    right_on='Mercer Location Concatenation', how='left')]. *)

Definition joined (e : Long.row) (key uuid type : option string)
  : Merged.row :=
  {| Merged.Country := Long.Country e;
     Merged.region := Long.region e;
     Merged.Currency := Long.Currency e;
     Merged.GrossFrom := Long.GrossFrom e;
     Merged.GrossTo := Long.GrossTo e;
     Merged.family_status := Long.family_status e;
     Merged.cost := Long.cost e;
     Merged.region_clean := Long.region_clean e;
     Merged.location_key := Long.location_key e;
     Merged.is_XYNA := Long.is_XYNA e;
     Merged.Mercer_Location_Concatenation := key;
     Merged.location_uuid := uuid;
     Merged.location_type := type |}.

Definition join_row (e : Long.row) (l : Mapping.row) : Merged.row :=
  joined e (Mapping.Mercer_Location_Concatenation l)
         (Mapping.location_uuid l) (Mapping.location_type l).

Definition unmatched_row (e : Long.row) : Merged.row :=
  joined e None None None.

(** The rows of the mapping whose key equals the key of [e], in the order
    of the mapping. *)
Definition matching_rows (e : Long.row) (location_rows : list Mapping.row)
  : list Mapping.row :=
  filter (fun l => key_eqb (Long.location_key e)
                           (Mapping.Mercer_Location_Concatenation l))
         location_rows.

(** The rows of the left join for one left row: one per matching row of
    the mapping, or one with the right columns missing. *)
Definition merge_row (location_rows : list Mapping.row) (e : Long.row)
  : list Merged.row :=
  match matching_rows e location_rows with
  | [] => [unmatched_row e]
  | l :: ls => map (join_row e) (l :: ls)
  end.

Definition merged_data (long : list Long.row) (location_rows : list Mapping.row)
  : list Merged.row :=
  flat_map (merge_row location_rows) long.

(* ================================================================ *)
(** * Step 6: the three masks *)
(* ================================================================ *)

Definition xyna_mask (m : Merged.row) : bool :=
  Bool.eqb (Merged.is_XYNA m) true.

Definition matched_mask (m : Merged.row) : bool :=
  notna (Merged.location_uuid m).

Definition missing_mask (m : Merged.row) : bool :=
  isna (Merged.location_uuid m) && negb (xyna_mask m).

Definition xyna_records (merged : list Merged.row) : list Merged.row :=
  filter xyna_mask merged.

Definition successfully_matched (merged : list Merged.row) : list Merged.row :=
  filter matched_mask merged.

Definition missing_locations (merged : list Merged.row) : list Merged.row :=
  filter missing_mask merged.

(* ================================================================ *)
(** * Step 7: min/max removal *)
(* ================================================================ *)

(** [series == other] on two numeric cells: a missing cell on either
    side compares unequal. *)
Definition num_eqb (a b : option Q) : bool :=
  match a, b with
  | Some x, Some y => Qeq_bool x y
  | _, _ => false
  end.

Definition q_min (a b : Q) : Q := if Qle_bool a b then a else b.
Definition q_max (a b : Q) : Q := if Qle_bool a b then b else a.

(** The aggregations ['min'], ['max'] and ['count'] of a column: missing
    cells are skipped, and a column of missing cells has a missing
    minimum and maximum. *)
Fixpoint series_min (l : list (option Q)) : option Q :=
  match l with
  | [] => None
  | None :: t => series_min t
  | Some x :: t =>
      match series_min t with
      | None => Some x
      | Some y => Some (q_min x y)
      end
  end.

Fixpoint series_max (l : list (option Q)) : option Q :=
  match l with
  | [] => None
  | None :: t => series_max t
  | Some x :: t =>
      match series_max t with
      | None => Some x
      | Some y => Some (q_max x y)
      end
  end.

Definition series_count (l : list (option Q)) : nat :=
  length (filter notna l).

(** One row of [group_stats], with the flattened column names. *)
Record stats := {
  grossFrom_rounded_min : option Q;
  grossFrom_rounded_max : option Q;
  grossFrom_rounded_count : nat;
  grossTo_rounded_min : option Q;
  grossTo_rounded_max : option Q;
  grossTo_rounded_count : nat
}.

Definition group_key (m : Merged.row) : string :=
  fillna "BLANK_UUID" (Merged.location_uuid m).

Section MinMax.
(** [round(2)] on a float. *)
Variable round2 : Q -> Q.

Definition round_cell (o : option Q) : option Q := option_map round2 o.

Definition grossFrom_rounded (m : Merged.row) : option Q :=
  round_cell (Merged.GrossFrom m).

Definition grossTo_rounded (m : Merged.row) : option Q :=
  round_cell (Merged.GrossTo m).

(** The rows of one group of [groupby('group_key')]. *)
Definition group_rows (g : string) (combined : list Merged.row)
  : list Merged.row :=
  filter (fun m => String.eqb (group_key m) g) combined.

(** [.agg({...: ['min', 'max', 'count'], ...}).round(2)] on one group;
    the counts are integers and [round(2)] leaves them. *)
Definition agg (group : list Merged.row) : stats :=
  let froms := map grossFrom_rounded group in
  let tos := map grossTo_rounded group in
  {| grossFrom_rounded_min := round_cell (series_min froms);
     grossFrom_rounded_max := round_cell (series_max froms);
     grossFrom_rounded_count := series_count froms;
     grossTo_rounded_min := round_cell (series_min tos);
     grossTo_rounded_max := round_cell (series_max tos);
     grossTo_rounded_count := series_count tos |}.

(** [group_stats] after [reset_index()]: one row per distinct key, the
    keys in ascending order. *)
Definition group_stats (combined : list Merged.row) : list (string * stats) :=
  map (fun g => (g, agg (group_rows g combined)))
      (sort_values String.leb (nodup string_dec (map group_key combined))).

(** [pd.merge(combined_for_minmax, group_stats, on='group_key',
    how='left')] for one row: the statistics of its key. *)
Definition stats_of (gs : list (string * stats)) (m : Merged.row)
  : option stats :=
  option_map snd (find (fun p => String.eqb (fst p) (group_key m)) gs).

Definition min_mask (gs : list (string * stats)) (m : Merged.row) : bool :=
  match stats_of gs m with
  | Some st => num_eqb (grossFrom_rounded m) (grossFrom_rounded_min st)
               && (1 <? grossFrom_rounded_count st)%nat
  | None => false
  end.

Definition max_mask (gs : list (string * stats)) (m : Merged.row) : bool :=
  match stats_of gs m with
  | Some st => num_eqb (grossTo_rounded m) (grossTo_rounded_max st)
               && (1 <? grossTo_rounded_count st)%nat
  | None => false
  end.

(** The two assignments of [np.nan] through [.loc]; both masks are
    computed from the rounded columns, which the assignments leave. *)
Definition remove_row (gs : list (string * stats)) (m : Merged.row)
  : Merged.row :=
  let m1 := if min_mask gs m then Merged.set_GrossFrom None m else m in
  if max_mask gs m then Merged.set_GrossTo None m1 else m1.

Definition remove_min_max_rows (combined : list Merged.row)
  : list Merged.row :=
  map (remove_row (group_stats combined)) combined.

(** Step 7 as a whole: the two tables that go on to Step 8. *)
Definition min_max_removal (remove_min_max : bool)
           (matched xyna : list Merged.row)
  : list Merged.row * list Merged.row :=
  if remove_min_max && ((0 <? length matched)%nat || (0 <? length xyna)%nat)
  then
    let combined_for_minmax := matched ++ xyna in
    if (0 <? length combined_for_minmax)%nat then
      let combined := remove_min_max_rows combined_for_minmax in
      (filter (fun m => Bool.eqb (Merged.is_XYNA m) false) combined,
       filter (fun m => Bool.eqb (Merged.is_XYNA m) true) combined)
    else (matched, xyna)
  else (matched, xyna).
End MinMax.

(* ================================================================ *)
(** * Step 8: the output tables *)
(* ================================================================ *)

(** [extract_children_count]. *)
Definition extract_children_count (family_status : string) : string :=
  match search_trailing_digits family_status with
  | Some digits => digits
  | None => "0"
  end.

(** The slices [s[:n]] and [s[n:]]. *)
Fixpoint slice_to (n : nat) (s : string) : string :=
  match n, s with
  | S n', String c s' => String c (slice_to n' s')
  | _, _ => EmptyString
  end.

Fixpoint slice_from (n : nat) (s : string) : string :=
  match n, s with
  | S n', String _ s' => slice_from n' s'
  | _, _ => s
  end.

(** [format_user_notes]. *)
Definition format_user_notes (location_key : option string) : string :=
  if cell_eqb location_key "XYNA" then "MercerLocation: GEC"
  else if (2 <=? String.length (py_str location_key))%nat then
    let formatted_key :=
      (slice_to 2 (py_str location_key) ++ "-"
       ++ slice_from 2 (py_str location_key))%string in
    ("MercerLocation: " ++ formatted_key)%string
  else ("MercerLocation: " ++ py_str location_key)%string.

(** [valid_from_date if valid_from_date else '']: an empty string is
    false. *)
Definition date_column (d : option string) : string :=
  match d with
  | Some s => if String.eqb s "" then "" else s
  | None => ""
  end.

(** The columns created and overwritten between lines 183 and 225, for
    one row of [final_base]. *)
Definition wide_row (valid_from_date valid_to_date : option string)
           (m : Merged.row) : Wide.row :=
  {| Wide.base :=
       if Bool.eqb (Merged.is_XYNA m) true
       then Merged.set_location (Some "") (Some "WORLD") m
       else m;
     Wide.maritalStatus :=
       upper (remove_trailing_digits (Merged.family_status m));
     Wide.numberOfChildren := extract_children_count (Merged.family_status m);
     Wide.serviceType :=
       if Bool.eqb (Merged.is_XYNA m) true then "GEC_POLICY" else "";
     Wide.userNotes := format_user_notes (Merged.location_key m);
     Wide.validFromDate := date_column valid_from_date;
     Wide.validToDate := date_column valid_to_date |}.

(** ** Step 8.5: max children adjustment *)

(** Truth value of an optional [int]: [None] and [0] are false. *)
Definition truthy (max_children : option Z) : bool :=
  match max_children with
  | Some n => negb (Z.eqb n 0)
  | None => false
  end.

(** [final_output.loc[mask, 'numberOfChildren'] = ''] with
    [mask = (maritalStatus == status) & (numberOfChildren == max_str)]. *)
Definition blank_children (status max_str : string) (rows : list Wide.row)
  : list Wide.row :=
  map (fun w =>
         if String.eqb (Wide.maritalStatus w) status
            && String.eqb (Wide.numberOfChildren w) max_str
         then Wide.set_numberOfChildren "" w
         else w)
      rows.

(** One of the two blocks [if single_max_children: ...] and
    [if married_max_children: ...]. *)
Definition adjust_children (status : string) (max_children : option Z)
           (rows : list Wide.row) : list Wide.row :=
  match max_children with
  | Some n =>
      if truthy max_children then
        let max_str := strip (str_of_int n) in
        if negb (String.eqb max_str "")
        then blank_children status max_str rows
        else rows
      else rows
  | None => rows
  end.

Definition max_children_adjustment (single_max_children
                                    married_max_children : option Z)
           (rows : list Wide.row) : list Wide.row :=
  if truthy single_max_children || truthy married_max_children then
    adjust_children "MARRIED" married_max_children
                    (adjust_children "SINGLE" single_max_children rows)
  else rows.

(** ** Renaming, selection and order *)

Definition final_row (w : Wide.row) : Final.row :=
  {| Final.locationUuid := Merged.location_uuid (Wide.base w);
     Final.locationType := Merged.location_type (Wide.base w);
     Final.grossFrom := Merged.GrossFrom (Wide.base w);
     Final.grossTo := Merged.GrossTo (Wide.base w);
     Final.maritalStatus := Wide.maritalStatus w;
     Final.numberOfChildren := Wide.numberOfChildren w;
     Final.cost := Merged.cost (Wide.base w);
     Final.currency := Merged.Currency (Wide.base w);
     Final.serviceType := Wide.serviceType w;
     Final.validFromDate := Wide.validFromDate w;
     Final.validToDate := Wide.validToDate w;
     Final.userNotes := Wide.userNotes w |}.

(** [sort_values(['locationUuid', 'maritalStatus', 'numberOfChildren'],
    na_position='first')]. *)
Definition final_le (a b : Final.row) : bool :=
  is_le (then_by (compare_cell true (Final.locationUuid a) (Final.locationUuid b))
        (then_by (String.compare (Final.maritalStatus a) (Final.maritalStatus b))
                 (String.compare (Final.numberOfChildren a)
                                 (Final.numberOfChildren b)))).

(** The table before selection, and [final_output]. *)
Definition wide_output (valid_from_date valid_to_date : option string)
           (single_max_children married_max_children : option Z)
           (final_base : list Merged.row) : list Wide.row :=
  max_children_adjustment single_max_children married_max_children
    (map (wide_row valid_from_date valid_to_date) final_base).

Definition final_output (valid_from_date valid_to_date : option string)
           (single_max_children married_max_children : option Z)
           (final_base : list Merged.row) : list Final.row :=
  if (0 <? length final_base)%nat then
    sort_values final_le
      (map final_row
           (wide_output valid_from_date valid_to_date
                        single_max_children married_max_children final_base))
  else [].

(** ** The missing locations *)

Definition missing_row (m : Merged.row) : Missing.row :=
  {| Missing.Country := Merged.Country m;
     Missing.region := Merged.region m;
     Missing.location_key := Merged.location_key m;
     Missing.family_status := Merged.family_status m;
     Missing.cost := Merged.cost m |}.

(** [sort_values(['Country', 'region', 'family_status'])]: missing cells
    last. *)
Definition missing_le (a b : Missing.row) : bool :=
  is_le (then_by (compare_cell false (Missing.Country a) (Missing.Country b))
        (then_by (compare_cell false (Missing.region a) (Missing.region b))
                 (String.compare (Missing.family_status a)
                                 (Missing.family_status b)))).

Definition missing_output (missing : list Merged.row) : list Missing.row :=
  if (0 <? length missing)%nat then
    sort_values missing_le (map missing_row missing)
  else [].

(* ================================================================ *)
(** * The workflow *)
(* ================================================================ *)

Section Workflow.
Variable round2 : Q -> Q.

(** [final_base]: the matched and the XYNA rows after Step 7. *)
Definition final_base (remove_min_max : bool) (merged : list Merged.row)
  : list Merged.row :=
  let (matched, xyna) :=
    min_max_removal round2 remove_min_max
                    (successfully_matched merged) (xyna_records merged) in
  matched ++ xyna.

(** Steps 5 to 8 on the expanded table. *)
Definition transform (long : list Long.row) (location_rows : list Mapping.row)
           (valid_from_date valid_to_date : option string)
           (remove_min_max : bool)
           (single_max_children married_max_children : option Z)
  : list Missing.row * list Final.row :=
  let merged := merged_data long location_rows in
  (missing_output (missing_locations merged),
   final_output valid_from_date valid_to_date
                single_max_children married_max_children
                (final_base remove_min_max merged)).

(** The warning of line 42. *)
Definition raw_warning (raw_data : Raw.table) : list message :=
  match missing_cols required_cols_raw (Raw.columns raw_data) with
  | [] => []
  | missing_raw => [Warning_missing_raw missing_raw]
  end.

Definition process_excel_workflow
           (raw_data : Raw.table) (location_data : Mapping.table)
           (valid_from_date valid_to_date : option string)
           (remove_min_max : bool)
           (single_max_children married_max_children : option Z)
  : list message * outcome :=
  match missing_cols required_cols_mapping (Mapping.columns location_data) with
  | c :: cs =>
      (raw_warning raw_data ++ [Warning_missing_mapping (c :: cs)], NoOutput)
  | [] =>
      match expand (clean_columns (Raw.columns raw_data))
                   (Raw.rows raw_data) with
      | inl e => (raw_warning raw_data, Raised e)
      | inr long =>
          let (missing, final) :=
            transform long (Mapping.rows location_data)
                      valid_from_date valid_to_date remove_min_max
                      single_max_children married_max_children in
          (raw_warning raw_data, Returned missing final)
      end
  end.
End Workflow.

(* ================================================================ *)
(** * The caller: [multi-workflow-app.py] *)
(* ================================================================ *)




(** Truth value of an optional string: [None] and [''] are false. *)
Definition truthy_str (o : option string) : bool :=
  match o with
  | Some s => negb (String.eqb s "")
  | None => false
  end.

(** [filename_suffix] of [display_spendable_results], lines 201 to 207. *)
Definition filename_suffix (valid_from_date valid_to_date : option string)
           (remove_min_max : bool)
           (single_max_children married_max_children : option Z) : string :=
  let s0 := "_Spendable" in
  let s1 := if truthy_str valid_from_date || truthy_str valid_to_date
            then (s0 ++ "_WithDates")%string else s0 in
  let s2 := if remove_min_max then (s1 ++ "_MinMaxRemoved")%string else s1 in
  if truthy single_max_children || truthy married_max_children
  then (s2 ++ "_UnlimitedChildren")%string else s2.

(** The metric XYNA/GEC Records, line 180. *)
Definition gec_policy_count (final_output : list Final.row) : nat :=
  if (0 <? length final_output)%nat then
    length (filter (fun f => String.eqb (Final.serviceType f) "GEC_POLICY")
                   final_output)
  else 0.

(** The metric Unlimited Children, line 183. *)
Definition unlimited_children (final_output : list Final.row) : nat :=
  if (0 <? length final_output)%nat then
    length (filter (fun f =>
                      String.eqb (Final.numberOfChildren f) ""
                      && existsb (String.eqb (Final.maritalStatus f))
                                 ["SINGLE"; "MARRIED"])
                   final_output)
  else 0.

(* ================================================================ *)
(** * A rounding function and sample tables *)
(* ================================================================ *)

(** Rounding to the nearest integer, halves to the even neighbour. *)
Definition rint (q : Q) : Z :=
  let f := Qfloor q in
  match Qcompare (q - inject_Z f) (1 # 2) with
  | Lt => f
  | Gt => (f + 1)%Z
  | Eq => if Z.even f then f else (f + 1)%Z
  end.

(** Rounding to two decimals as [numpy] documents it: scale by 100,
    round half to even, scale back. *)
Definition round_half_even (q : Q) : Q :=
  Qmake (rint (q * inject_Z 100)) 100.

Module Sample.
Definition header : list string :=
  ["Country"; "region"; "Currency"; "GrossFrom"; "GrossTo";
   "Single"; "Married"; "Married1"; "Married2"; "Married3"; "Married4";
   "Married5"].

Definition mapping_header : list string :=
  ["Mercer Location Concatenation"; "location_uuid"; "location_type"].

(** Costs of a row: 100 in [Single], 150 in [Married], 150 + 10 n in
    [Married]n. *)
Definition costs (col : string) : option Q :=
  if String.eqb col "Single" then Some (100 # 1)%Q
  else if String.eqb col "Married" then Some (150 # 1)%Q
  else if String.eqb col "Married1" then Some (160 # 1)%Q
  else if String.eqb col "Married2" then Some (170 # 1)%Q
  else if String.eqb col "Married3" then Some (180 # 1)%Q
  else if String.eqb col "Married4" then Some (190 # 1)%Q
  else if String.eqb col "Married5" then Some (200 # 1)%Q
  else None.

Definition raw (country region : option string) (from to : option Q)
  : Raw.row :=
  {| Raw.Country := country; Raw.region := region;
     Raw.Currency := Some "USD";
     Raw.GrossFrom := from; Raw.GrossTo := to;
     Raw.value := costs |}.

Definition us : Raw.row :=
  raw (Some "US") None (Some (1000 # 1)%Q) (Some (2000 # 1)%Q).

Definition xy : Raw.row :=
  raw (Some "XY") None (Some (1000 # 1)%Q) (Some (2000 # 1)%Q).

Definition loc (key uuid type : string) : Mapping.row :=
  {| Mapping.Mercer_Location_Concatenation := Some key;
     Mapping.location_uuid := Some uuid;
     Mapping.location_type := Some type |}.

(** Two raw rows, one of them with the key XYNA, and a mapping that has
    a row for each key. *)
Definition raw_table : Raw.table :=
  {| Raw.columns := header; Raw.rows := [xy; us] |}.

Definition mapping_table : Mapping.table :=
  {| Mapping.columns := mapping_header;
     Mapping.rows := [loc "XYNA" "zzz" "CITY"; loc "USNA" "abc-123" "CITY"] |}.

Definition empty_mapping : Mapping.table :=
  {| Mapping.columns := mapping_header; Mapping.rows := [] |}.

(** A joined row of the US record, matched to the identifier [uuid]. *)
Definition matched (uuid : string) (from to : option Q) : Merged.row :=
  join_row (long_row "Single" "Single" (raw (Some "US") None from to))
           (loc "USNA" uuid "CITY").
End Sample.

(* ================================================================ *)
(** * Notions used in the statements *)
(* ================================================================ *)

(** The family statuses of the dictionary. *)
Definition family_statuses : list string := map fst family_status_mapping.

(** No character of [s] is white space. *)
Fixpoint no_space (s : string) : bool :=
  match s with
  | EmptyString => true
  | String c s' => negb (is_space c) && no_space s'
  end.

(** The adjustment of one block on one row. *)
Definition adjust_row (status : string) (max_children : option Z)
           (w : Wide.row) : Wide.row :=
  match max_children with
  | Some n =>
      if truthy max_children
         && String.eqb (Wide.maritalStatus w) status
         && String.eqb (Wide.numberOfChildren w) (str_of_int n)
      then Wide.set_numberOfChildren "" w
      else w
  | None => w
  end.

(** [numberOfChildren == str(max_children)] for an optional threshold. *)
Definition at_threshold (max_children : option Z) (count : string) : bool :=
  match max_children with
  | Some n => String.eqb count (str_of_int n)
  | None => false
  end.

(** [m] is a joined row of the expansion of the raw row [r]: the join of
    one of its long rows with some mapping columns, GrossFrom and GrossTo
    apart, which Step 7 may have overwritten. *)
Definition derived_from (r : Raw.row) (m : Merged.row) : Prop :=
  exists fs src key uuid type,
    In (fs, src) family_status_mapping /\
    Merged.set_GrossFrom None (Merged.set_GrossTo None m)
    = Merged.set_GrossFrom None
        (Merged.set_GrossTo None (joined (long_row fs src r) key uuid type)).

(* ================================================================ *)
(** * General lemmas *)
(* ================================================================ *)

Lemma has_column_In (col : string) (columns : list string) :
  has_column col columns = true <-> In col columns.
Proof.
  unfold has_column. rewrite existsb_exists. split.
  - intros [x [Hin Heq]]. apply String.eqb_eq in Heq. now subst.
  - intros Hin. exists col. split; [assumption | apply String.eqb_refl].
Qed.

Lemma missing_cols_In (required columns : list string) (col : string) :
  In col (missing_cols required columns) <->
  In col required /\ ~ In col columns.
Proof.
  unfold missing_cols. rewrite filter_In, negb_true_iff.
  pose proof (has_column_In col columns) as H.
  destruct (has_column col columns); split; intros [H1 H2]; split; auto.
  - discriminate.
  - exfalso. apply H2, H. reflexivity.
  - intros Hin. apply H in Hin. discriminate.
Qed.

Section SortFacts.
Context {A : Type}.
Variable le : A -> A -> bool.

Lemma insert_sorted_perm (x : A) (l : list A) :
  Permutation (insert_sorted le x l) (x :: l).
Proof.
  induction l as [|y t IH]; simpl.
  - apply Permutation_refl.
  - destruct (le x y).
    + apply Permutation_refl.
    + apply perm_trans with (y :: x :: t).
      * now apply perm_skip.
      * apply perm_swap.
Qed.

Lemma sort_values_perm (l : list A) : Permutation (sort_values le l) l.
Proof.
  induction l as [|x t IH]; simpl.
  - apply perm_nil.
  - apply perm_trans with (x :: sort_values le t).
    + apply insert_sorted_perm.
    + now apply perm_skip.
Qed.

Lemma sort_values_In (l : list A) (x : A) :
  In x (sort_values le l) <-> In x l.
Proof.
  split; apply Permutation_in.
  - apply sort_values_perm.
  - apply Permutation_sym, sort_values_perm.
Qed.
End SortFacts.

Lemma family_status_mapping_functional (fs src src' : string) :
  In (fs, src) family_status_mapping ->
  In (fs, src') family_status_mapping ->
  src = src'.
Proof.
  unfold family_status_mapping. simpl. intros H H'.
  repeat (destruct H as [H | H]; [inversion H; subst; clear H |]);
    try contradiction;
    repeat (destruct H' as [H' | H']; [inversion H'; subst; clear H' |]);
    try contradiction; reflexivity.
Qed.

Lemma long_data_In (columns : list string) (rows : list Raw.row) (e : Long.row) :
  In e (long_data columns rows) <->
  exists fs src r,
    In (fs, src) family_status_mapping /\ has_column src columns = true /\
    In r rows /\ e = long_row fs src r.
Proof.
  unfold long_data, present_entries. rewrite in_flat_map. split.
  - intros [[fs src] [Hentry Hin]]. apply filter_In in Hentry.
    destruct Hentry as [Hentry Hcol]. apply in_map_iff in Hin.
    destruct Hin as [r [Heq Hr]]. exists fs, src, r. simpl in *. auto.
  - intros [fs [src [r [Hentry [Hcol [Hr Heq]]]]]]. exists (fs, src). split.
    + apply filter_In. auto.
    + apply in_map_iff. exists r. auto.
Qed.

Lemma expand_inr (columns : list string) (rows : list Raw.row)
      (long : list Long.row) :
  expand columns rows = inr long -> long = long_data columns rows.
Proof.
  unfold expand. destruct (present_entries columns); [discriminate |].
  destruct (forallb _ id_vars); [| discriminate].
  intros H. now inversion H.
Qed.

(* ================================================================ *)
(** * Expansion *)
(* ================================================================ *)

(** C9 (amended).  Every expanded record's family status is one of the
    twelve keys of the alias table (Single, Single1 to Single5, Married,
    Married1 to Married5, all distinct); the source column that the alias
    table gives for it is in the raw table, and the record's cost is the
    cell of one raw row in that one column, the identifier fields being
    those of the same raw row. *)
Theorem expansion_categories (columns : list string) (rows : list Raw.row)
        (long : list Long.row) (e : Long.row) :
  expand columns rows = inr long ->
  In e long ->
  In (Long.family_status e) family_statuses /\
  length family_statuses = 12 /\ NoDup family_statuses /\
  exists src r,
    In (Long.family_status e, src) family_status_mapping /\
    (forall src', In (Long.family_status e, src') family_status_mapping ->
                  src' = src) /\
    has_column src columns = true /\
    In r rows /\
    Long.cost e = Raw.value r src /\
    e = long_row (Long.family_status e) src r.
Proof.
  intros Hexp Hin. apply expand_inr in Hexp. subst long.
  apply long_data_In in Hin.
  destruct Hin as [fs [src [r [Hentry [Hcol [Hr Heq]]]]]]. subst e.
  assert (Hfs : In fs family_statuses).
  { unfold family_statuses. apply in_map_iff. exists (fs, src). auto. }
  cbn [Long.family_status Long.cost long_row]. split.
  - exact Hfs.
  - split; [reflexivity |]. split.
    + unfold family_statuses, family_status_mapping. simpl.
      repeat (constructor;
              [simpl; intros H;
               repeat (destruct H as [H | H]; [discriminate |]); exact H |]).
      constructor.
    + exists src, r. repeat split; auto.
      intros src' H'. eapply family_status_mapping_functional; eauto.
Qed.

Lemma expansion_categories_witness :
  In (long_row "Single1" "Married" Sample.us)
     (long_data Sample.header [Sample.us]) /\
  In "Single1" family_statuses.
Proof.
  assert (Hexp : expand Sample.header [Sample.us]
                 = inr (long_data Sample.header [Sample.us]))
    by reflexivity.
  assert (Hin : In (long_row "Single1" "Married" Sample.us)
                   (long_data Sample.header [Sample.us]))
    by (vm_compute; auto).
  split; [exact Hin |].
  exact (proj1 (expansion_categories Sample.header [Sample.us] _ _ Hexp Hin)).
Defined.

(** C9 as stated fails: on a table with every column, the expansion of
    one raw row has twelve distinct family statuses, so no set of eleven
    categories holds them all. *)
Lemma expansion_not_eleven :
  ~ (exists S : list string,
        length S = 11 /\
        forall long e, expand Sample.header [Sample.us] = inr long ->
                       In e long -> In (Long.family_status e) S).
Proof.
  intros [S [Hlen Hall]].
  assert (Hincl : incl family_statuses S).
  { intros fs Hfs. unfold family_statuses in Hfs. apply in_map_iff in Hfs.
    destruct Hfs as [[fs' src] [Heq Hentry]]. simpl in Heq. subst fs'.
    apply (Hall (long_data Sample.header [Sample.us])
                (long_row fs src Sample.us)); [reflexivity |].
    apply long_data_In. exists fs, src, Sample.us. repeat split; auto.
    - revert Hentry. unfold family_status_mapping. simpl. intros H.
      repeat (destruct H as [H | H]; [inversion H; reflexivity |]).
      contradiction.
    - simpl. auto. }
  assert (Hnd : NoDup family_statuses).
  { unfold family_statuses, family_status_mapping. simpl.
    repeat (constructor;
            [simpl; intros H;
             repeat (destruct H as [H | H]; [discriminate |]); exact H |]).
    constructor. }
  pose proof (NoDup_incl_length Hnd Hincl) as Hle.
  rewrite Hlen in Hle. vm_compute in Hle. lia.
Qed.

(* ================================================================ *)
(** * The left join *)
(* ================================================================ *)

Lemma key_eqb_eq (a b : option string) : key_eqb a b = true <-> a = b.
Proof.
  destruct a as [x|], b as [y|]; simpl; split; intros H;
    try discriminate; try reflexivity.
  - apply String.eqb_eq in H. now subst.
  - inversion H. apply String.eqb_refl.
Qed.

Lemma cell_eqb_eq (o : option string) (lit : string) :
  cell_eqb o lit = true <-> o = Some lit.
Proof.
  destruct o as [s|]; simpl; split; intros H; try discriminate.
  - apply String.eqb_eq in H. now subst.
  - inversion H. apply String.eqb_refl.
Qed.

Lemma merge_row_length (location_rows : list Mapping.row) (e : Long.row) :
  length (merge_row location_rows e)
  = Nat.max 1 (length (matching_rows e location_rows)).
Proof.
  unfold merge_row. destruct (matching_rows e location_rows) as [|l ls].
  - reflexivity.
  - rewrite length_map. simpl. reflexivity.
Qed.

Lemma merge_row_In (location_rows : list Mapping.row) (e : Long.row)
      (m : Merged.row) :
  In m (merge_row location_rows e) ->
  (m = unmatched_row e /\ matching_rows e location_rows = []) \/
  exists l, In l location_rows /\
            Mapping.Mercer_Location_Concatenation l = Long.location_key e /\
            m = join_row e l.
Proof.
  unfold merge_row.
  destruct (matching_rows e location_rows) as [|l ls] eqn:Hm.
  - simpl. intros [H | []]. left. auto.
  - intros H. right. apply in_map_iff in H. destruct H as [l' [Heq Hin]].
    rewrite <- Hm in Hin. unfold matching_rows in Hin.
    apply filter_In in Hin. destruct Hin as [Hin Hkey].
    apply key_eqb_eq in Hkey. exists l'. auto.
Qed.

Lemma merged_data_In (long : list Long.row) (location_rows : list Mapping.row)
      (m : Merged.row) :
  In m (merged_data long location_rows) <->
  exists e, In e long /\ In m (merge_row location_rows e).
Proof. unfold merged_data. apply in_flat_map. Qed.

(** The long columns of a joined row are those of its left row. *)
Lemma merge_row_left (location_rows : list Mapping.row) (e : Long.row)
      (m : Merged.row) :
  In m (merge_row location_rows e) ->
  exists key uuid type, m = joined e key uuid type.
Proof.
  intros H. apply merge_row_In in H.
  destruct H as [[H _] | [l [_ [_ H]]]]; subst m.
  - exists None, None, None. reflexivity.
  - unfold join_row. eauto.
Qed.

(** C2 (amended).  The left join has no first-match rule: for every
    expanded record it keeps every mapping row whose source key equals
    the record's location key, in the order of the mapping table.  A
    record whose key occurs n >= 1 times in the mapping yields n joined
    rows (one row when n = 0); its matched records are the joins with
    those of the n mapping rows that have an identifier, so it yields at
    most as many matched records as its key has occurrences. *)
Theorem join_keeps_every_match (location_rows : list Mapping.row)
        (e : Long.row) :
  length (merge_row location_rows e)
  = Nat.max 1 (length (matching_rows e location_rows)) /\
  successfully_matched (merge_row location_rows e)
  = map (join_row e)
        (filter (fun l => notna (Mapping.location_uuid l))
                (matching_rows e location_rows)) /\
  length (successfully_matched (merge_row location_rows e))
  <= length (matching_rows e location_rows).
Proof.
  assert (Hmatched :
            successfully_matched (merge_row location_rows e)
            = map (join_row e)
                  (filter (fun l => notna (Mapping.location_uuid l))
                          (matching_rows e location_rows))).
  { unfold merge_row, successfully_matched.
    destruct (matching_rows e location_rows) as [|l ls]; [reflexivity |].
    generalize (l :: ls). intros rows.
    induction rows as [|x t IH]; [reflexivity |].
    simpl. unfold matched_mask at 1. simpl.
    destruct (notna (Mapping.location_uuid x)); simpl; now rewrite IH. }
  split; [apply merge_row_length |]. split; [exact Hmatched |].
  rewrite Hmatched, length_map. apply filter_length_le.
Qed.

(** C2 as stated fails: with two mapping rows for the key USNA, one
    expanded record yields two matched records. *)
Lemma first_match_does_not_win :
  ~ (forall (location_rows : list Mapping.row) (e : Long.row),
        length (successfully_matched (merge_row location_rows e)) <= 1).
Proof.
  intros H.
  specialize (H [Sample.loc "USNA" "u1" "CITY"; Sample.loc "USNA" "u2" "CITY"]
                (long_row "Single" "Single" Sample.us)).
  vm_compute in H. lia.
Qed.

(* ================================================================ *)
(** * The three partitions *)
(* ================================================================ *)

Lemma partition_lengths {A : Type} (p q r : A -> bool) (l : list A) :
  (forall x, In x l -> Nat.b2n (p x) + Nat.b2n (q x) + Nat.b2n (r x) = 1) ->
  length (filter p l) + length (filter q l) + length (filter r l) = length l.
Proof.
  induction l as [|x t IH]; intros H; [reflexivity |].
  assert (Hx := H x (or_introl eq_refl)).
  assert (Ht : forall y, In y t ->
                         Nat.b2n (p y) + Nat.b2n (q y) + Nat.b2n (r y) = 1)
    by (intros y Hy; apply H; now right).
  specialize (IH Ht). simpl.
  destruct (p x), (q x), (r x); simpl in *; lia.
Qed.

Lemma matching_rows_unique (location_rows : list Mapping.row) (e : Long.row) :
  NoDup (map Mapping.Mercer_Location_Concatenation location_rows) ->
  length (matching_rows e location_rows) <= 1.
Proof.
  unfold matching_rows. induction location_rows as [|l t IH]; intros Hnd.
  - simpl. lia.
  - simpl in Hnd. inversion Hnd as [|? ? Hnotin Hnd']; subst.
    simpl.
    destruct (key_eqb (Long.location_key e)
                      (Mapping.Mercer_Location_Concatenation l)) eqn:Hk.
    + apply key_eqb_eq in Hk.
      assert (Hnone : filter
                (fun l0 => key_eqb (Long.location_key e)
                                   (Mapping.Mercer_Location_Concatenation l0))
                t = []).
      { destruct (filter _ t) as [|x xs] eqn:Hf; [reflexivity |].
        exfalso. assert (Hin : In x (filter
                (fun l0 => key_eqb (Long.location_key e)
                                   (Mapping.Mercer_Location_Concatenation l0))
                t)) by (rewrite Hf; now left).
        apply filter_In in Hin. destruct Hin as [Hin Hkx].
        apply key_eqb_eq in Hkx. apply Hnotin.
        rewrite <- Hk, Hkx. now apply in_map. }
      rewrite Hnone. simpl. lia.
    + now apply IH.
Qed.

Lemma merged_data_length_unique (long : list Long.row)
      (location_rows : list Mapping.row) :
  NoDup (map Mapping.Mercer_Location_Concatenation location_rows) ->
  length (merged_data long location_rows) = length long.
Proof.
  intros Hnd. unfold merged_data. induction long as [|e t IH].
  - reflexivity.
  - simpl. rewrite length_app, IH, merge_row_length.
    pose proof (matching_rows_unique location_rows e Hnd). lia.
Qed.

(** C1 (amended).  Take a mapping table in which no row with source key
    XYNA has an identifier.  Then every row of the left join falls into
    exactly one of the three partitions, so the Matched, Exception and
    Unmatched counts add up to the number of joined rows; that number is
    the number of expanded records when no two mapping rows share a
    source key.  A joined row whose location key is XYNA is in the
    Exception partition only, also when the mapping has a row for XYNA. *)
Theorem partition_counts (columns : list string) (rows : list Raw.row)
        (location_rows : list Mapping.row) (long : list Long.row) :
  expand columns rows = inr long ->
  (forall l, In l location_rows ->
             Mapping.Mercer_Location_Concatenation l = Some "XYNA" ->
             Mapping.location_uuid l = None) ->
  let merged := merged_data long location_rows in
  length (successfully_matched merged) + length (xyna_records merged)
  + length (missing_locations merged) = length merged /\
  (forall m, In m merged ->
             Nat.b2n (matched_mask m) + Nat.b2n (xyna_mask m)
             + Nat.b2n (missing_mask m) = 1) /\
  (forall m, In m merged ->
             Merged.location_key m = Some "XYNA" ->
             xyna_mask m = true /\ matched_mask m = false /\
             missing_mask m = false) /\
  (NoDup (map Mapping.Mercer_Location_Concatenation location_rows) ->
   length merged = length long).
Proof.
  intros Hexp Hloc merged. apply expand_inr in Hexp.
  assert (Hrow : forall m, In m merged ->
                   Merged.is_XYNA m = cell_eqb (Merged.location_key m) "XYNA" /\
                   (Merged.location_key m = Some "XYNA" ->
                    Merged.location_uuid m = None)).
  { intros m Hm. apply merged_data_In in Hm. destruct Hm as [e [He Hm]].
    rewrite Hexp in He. apply long_data_In in He.
    destruct He as [fs [src [r [_ [_ [_ He]]]]]].
    apply merge_row_In in Hm.
    destruct Hm as [[Hm _] | [l [Hl [Hkey Hm]]]]; subst m.
    - subst e. simpl. auto.
    - split; [subst e; reflexivity |].
      unfold join_row. simpl. intros Hx. apply Hloc; congruence. }
  assert (Hone : forall m, In m merged ->
                   Nat.b2n (matched_mask m) + Nat.b2n (xyna_mask m)
                   + Nat.b2n (missing_mask m) = 1).
  { intros m Hm. destruct (Hrow m Hm) as [Hx Hu].
    unfold missing_mask, matched_mask, xyna_mask, isna.
    rewrite Hx. destruct (cell_eqb (Merged.location_key m) "XYNA") eqn:Hk.
    - apply cell_eqb_eq in Hk. rewrite (Hu Hk). reflexivity.
    - destruct (Merged.location_uuid m); reflexivity. }
  split.
  - unfold successfully_matched, xyna_records, missing_locations.
    now apply partition_lengths.
  - split; [exact Hone |]. split.
    + intros m Hm Hk. destruct (Hrow m Hm) as [Hx Hu].
      unfold missing_mask, matched_mask, xyna_mask, isna.
      rewrite Hx, (Hu Hk), Hk. auto.
    + intros Hnd. now apply merged_data_length_unique.
Qed.

Lemma partition_counts_witness :
  let merged :=
    merged_data (long_data Sample.header [Sample.xy; Sample.us])
                [Sample.loc "USNA" "abc-123" "CITY"] in
  length (successfully_matched merged) + length (xyna_records merged)
  + length (missing_locations merged) = length merged.
Proof.
  refine (proj1 (partition_counts Sample.header [Sample.xy; Sample.us]
                   [Sample.loc "USNA" "abc-123" "CITY"] _ eq_refl _)).
  intros l Hl Hk. simpl in Hl. destruct Hl as [Hl | []]. subst l.
  simpl in Hk. discriminate.
Defined.

(** C1 as stated fails: with two mapping rows for the key USNA, the
    twelve expanded records of one raw row give twenty-four matched
    rows. *)
Lemma partition_counts_not_expanded :
  ~ (forall (columns : list string) (rows : list Raw.row)
            (location_rows : list Mapping.row) (long : list Long.row),
        expand columns rows = inr long ->
        let merged := merged_data long location_rows in
        length (successfully_matched merged) + length (xyna_records merged)
        + length (missing_locations merged) = length long).
Proof.
  intros H.
  specialize (H Sample.header [Sample.us]
                [Sample.loc "USNA" "u1" "CITY"; Sample.loc "USNA" "u2" "CITY"]
                _ eq_refl).
  vm_compute in H. discriminate.
Qed.

(** A row for XYNA in the mapping puts the XYNA records in both the
    Matched and the Exception partition: twelve expanded records, twelve
    matched rows and twelve exception rows. *)
Example xyna_row_in_two_partitions :
  let merged :=
    merged_data (long_data Sample.header [Sample.xy])
                [Sample.loc "XYNA" "zzz" "CITY"] in
  length merged = 12 /\
  length (successfully_matched merged) = 12 /\
  length (xyna_records merged) = 12 /\
  length (missing_locations merged) = 0.
Proof. vm_compute. auto. Qed.

(* ================================================================ *)
(** * Validation *)
(* ================================================================ *)

Section Validation.
Variable round2 : Q -> Q.

(** What a call that returns two tables has computed. *)
Lemma process_returned (raw_data : Raw.table) (location_data : Mapping.table)
      (valid_from_date valid_to_date : option string) (remove_min_max : bool)
      (single_max_children married_max_children : option Z)
      (log : list message)
      (missing : list Missing.row) (final : list Final.row) :
  process_excel_workflow round2 raw_data location_data
    valid_from_date valid_to_date remove_min_max
    single_max_children married_max_children
  = (log, Returned missing final) ->
  let long := long_data (clean_columns (Raw.columns raw_data))
                        (Raw.rows raw_data) in
  let merged := merged_data long (Mapping.rows location_data) in
  expand (clean_columns (Raw.columns raw_data)) (Raw.rows raw_data)
  = inr long /\
  missing = missing_output (missing_locations merged) /\
  final = final_output valid_from_date valid_to_date
                       single_max_children married_max_children
                       (final_base round2 remove_min_max merged).
Proof.
  unfold process_excel_workflow.
  destruct (missing_cols required_cols_mapping _); [| discriminate].
  destruct (expand _ _) as [e | long'] eqn:Hexp; [discriminate |].
  pose proof (expand_inr _ _ _ Hexp) as Hlong. subst long'.
  unfold transform. intros H. inversion H. auto.
Qed.

(** C3.  When a required column is absent from the location-mapping
    table, the call stops at validation, whatever the raw table and the
    options are: it returns [None, None], that is no output table at
    all, after the warning that lists the absent columns. *)
Theorem mapping_columns_required
        (raw_data : Raw.table) (location_data : Mapping.table)
        (valid_from_date valid_to_date : option string)
        (remove_min_max : bool)
        (single_max_children married_max_children : option Z) :
  (exists col, In col required_cols_mapping /\
               ~ In col (Mapping.columns location_data)) ->
  let result :=
    process_excel_workflow round2 raw_data location_data
      valid_from_date valid_to_date remove_min_max
      single_max_children married_max_children in
  snd result = NoOutput /\
  In (Warning_missing_mapping
        (missing_cols required_cols_mapping (Mapping.columns location_data)))
     (fst result).
Proof.
  intros [col [Hreq Hmiss]] result. subst result.
  unfold process_excel_workflow.
  destruct (missing_cols required_cols_mapping
                         (Mapping.columns location_data)) as [|c cs] eqn:Hm.
  - exfalso.
    assert (Hin : In col (missing_cols required_cols_mapping
                                       (Mapping.columns location_data)))
      by (apply missing_cols_In; auto).
    rewrite Hm in Hin. contradiction.
  - simpl. split; [reflexivity |]. apply in_or_app. right. now left.
Qed.

(** The other side of C4: with a complete mapping table, a raw table
    that lacks an identifier column or has no family-status source column
    makes the call raise. *)
Lemma raw_columns_fatal
      (raw_data : Raw.table) (location_data : Mapping.table)
      (valid_from_date valid_to_date : option string)
      (remove_min_max : bool)
      (single_max_children married_max_children : option Z) :
  missing_cols required_cols_mapping (Mapping.columns location_data) = [] ->
  (exists c, In c id_vars /\
             ~ In c (clean_columns (Raw.columns raw_data))) \/
  (forall fs src, In (fs, src) family_status_mapping ->
                  ~ In src (clean_columns (Raw.columns raw_data))) ->
  exists e,
    process_excel_workflow round2 raw_data location_data
      valid_from_date valid_to_date remove_min_max
      single_max_children married_max_children
    = (raw_warning raw_data, Raised e).
Proof.
  intros Hmap Hbad. unfold process_excel_workflow. rewrite Hmap.
  unfold expand.
  destruct (present_entries (clean_columns (Raw.columns raw_data)))
    as [|p ps] eqn:Hp.
  - exists ValueError. reflexivity.
  - destruct (forallb _ id_vars) eqn:Hall.
    + exfalso. destruct Hbad as [[c [Hc Hmiss]] | Hnone].
      * rewrite forallb_forall in Hall. apply Hmiss, has_column_In.
        now apply Hall.
      * assert (Hin : In p (present_entries
                              (clean_columns (Raw.columns raw_data))))
          by (rewrite Hp; now left).
        unfold present_entries in Hin. apply filter_In in Hin.
        destruct p as [fs src]. destruct Hin as [Hentry Hcol].
        apply (Hnone fs src Hentry). now apply has_column_In.
    + exists KeyError. reflexivity.
Qed.
End Validation.

Lemma mapping_columns_required_witness :
  snd (process_excel_workflow round_half_even
         {| Raw.columns := Sample.header; Raw.rows := [Sample.us] |}
         {| Mapping.columns := ["Mercer Location Concatenation"; "location_uuid"];
            Mapping.rows := [] |}
         None None false None None)
  = NoOutput.
Proof.
  refine (proj1 (mapping_columns_required round_half_even _ _ _ _ _ _ _ _)).
  exists "location_type". split.
  - simpl. auto.
  - simpl. intros [H | [H | []]]; discriminate.
Defined.



(** The two ways in which a raw table makes the call raise. *)
Example raw_columns_raise :
  snd (process_excel_workflow round_half_even
         {| Raw.columns := tl Sample.header; Raw.rows := [Sample.us] |}
         {| Mapping.columns := Sample.mapping_header; Mapping.rows := [] |}
         None None false None None)
  = Raised KeyError /\
  snd (process_excel_workflow round_half_even
         {| Raw.columns := id_vars; Raw.rows := [Sample.us] |}
         {| Mapping.columns := Sample.mapping_header; Mapping.rows := [] |}
         None None false None None)
  = Raised ValueError.
Proof. vm_compute. auto. Qed.

(* ================================================================ *)
(** * Min/max removal *)
(* ================================================================ *)

Lemma series_min_None (l : list (option Q)) :
  series_min l = None -> forall x, ~ In (Some x) l.
Proof.
  induction l as [|o t IH]; intros H x Hin; [contradiction |].
  destruct o as [y|]; simpl in H.
  - destruct (series_min t); discriminate.
  - destruct Hin as [Hin | Hin]; [discriminate | now apply (IH H x)].
Qed.

Lemma series_min_Some (l : list (option Q)) (v : Q) :
  series_min l = Some v ->
  In (Some v) l /\ forall x, In (Some x) l -> (v <= x)%Q.
Proof.
  revert v. induction l as [|o t IH]; intros v H; [discriminate |].
  destruct o as [y|]; simpl in H.
  - destruct (series_min t) as [w|] eqn:Ht.
    + destruct (IH w eq_refl) as [Hw Hle]. inversion H as [Hv]. clear H.
      unfold q_min. destruct (Qle_bool y w) eqn:Hyw.
      * apply Qle_bool_iff in Hyw. split; [now left |].
        intros x [Hx | Hx].
        -- inversion Hx. apply Qle_refl.
        -- apply Qle_trans with w; auto.
      * assert (Hlt : (w < y)%Q).
        { apply Qnot_le_lt. intros Hc. apply Qle_bool_iff in Hc. congruence. }
        split; [now right |]. intros x [Hx | Hx].
        -- inversion Hx. subst. now apply Qlt_le_weak.
        -- now apply Hle.
    + inversion H. subst. split; [now left |]. intros x [Hx | Hx].
      * inversion Hx. apply Qle_refl.
      * exfalso. exact (series_min_None t Ht x Hx).
  - destruct (IH v H) as [Hv Hle]. split; [now right |].
    intros x [Hx | Hx]; [discriminate | now apply Hle].
Qed.




Lemma find_key {B : Type} (F : string -> B) (k : string) (keys : list string) :
  In k keys ->
  find (fun p => String.eqb (fst p) k) (map (fun g => (g, F g)) keys)
  = Some (k, F k).
Proof.
  induction keys as [|g t IH]; intros Hin; [contradiction |].
  simpl. destruct (String.eqb g k) eqn:Hg.
  - apply String.eqb_eq in Hg. now subst.
  - destruct Hin as [Hin | Hin].
    + subst. rewrite String.eqb_refl in Hg. discriminate.
    + now apply IH.
Qed.

Lemma split_by_flag_perm {A : Type} (f : A -> bool) (l : list A) :
  Permutation (filter (fun x => Bool.eqb (f x) false) l
               ++ filter (fun x => Bool.eqb (f x) true) l) l.
Proof.
  induction l as [|x t IH]; [apply perm_nil |].
  simpl. destruct (f x); simpl.
  - apply Permutation_sym, Permutation_cons_app, Permutation_sym, IH.
  - now apply perm_skip.
Qed.

Section MinMaxFacts.
Variable round2 : Q -> Q.

Lemma series_count_rounded (f : Merged.row -> option Q)
      (group : list Merged.row) :
  series_count (map (fun m => round_cell round2 (f m)) group)
  = series_count (map f group).
Proof.
  unfold series_count. induction group as [|m t IH]; [reflexivity |].
  simpl. destruct (f m); simpl; now rewrite IH.
Qed.

Lemma stats_of_group (combined : list Merged.row) (m : Merged.row) :
  In m combined ->
  stats_of (group_stats round2 combined) m
  = Some (agg round2 (group_rows (group_key m) combined)).
Proof.
  intros Hin. unfold stats_of, group_stats.
  rewrite (find_key (fun g => agg round2 (group_rows g combined))).
  - reflexivity.
  - apply sort_values_In, nodup_In, in_map, Hin.
Qed.

Lemma group_rows_In (combined : list Merged.row) (m : Merged.row) :
  In m combined -> In m (group_rows (group_key m) combined).
Proof.
  intros Hin. unfold group_rows. apply filter_In. split; [assumption |].
  apply String.eqb_refl.
Qed.

(** The columns that the two assignments leave alone. *)
Lemma remove_row_other_columns (gs : list (string * stats)) (m : Merged.row) :
  Merged.set_GrossFrom None (Merged.set_GrossTo None (remove_row round2 gs m))
  = Merged.set_GrossFrom None (Merged.set_GrossTo None m).
Proof.
  unfold remove_row. destruct (min_mask round2 gs m), (max_mask round2 gs m);
    reflexivity.
Qed.

Lemma remove_row_GrossFrom (gs : list (string * stats)) (m : Merged.row) :
  Merged.GrossFrom (remove_row round2 gs m)
  = if min_mask round2 gs m then None else Merged.GrossFrom m.
Proof.
  unfold remove_row. destruct (min_mask round2 gs m), (max_mask round2 gs m);
    reflexivity.
Qed.

Lemma remove_row_GrossTo (gs : list (string * stats)) (m : Merged.row) :
  Merged.GrossTo (remove_row round2 gs m)
  = if max_mask round2 gs m then None else Merged.GrossTo m.
Proof.
  unfold remove_row. destruct (min_mask round2 gs m), (max_mask round2 gs m);
    reflexivity.
Qed.

Lemma min_max_removal_perm (remove_min_max : bool)
      (matched xyna : list Merged.row) :
  Permutation
    (fst (min_max_removal round2 remove_min_max matched xyna)
     ++ snd (min_max_removal round2 remove_min_max matched xyna))
    (if remove_min_max then remove_min_max_rows round2 (matched ++ xyna)
     else matched ++ xyna).
Proof.
  unfold min_max_removal.
  destruct remove_min_max; [| apply Permutation_refl].
  cbn [andb].
  destruct ((0 <? length matched)%nat || (0 <? length xyna)%nat) eqn:H1.
  - destruct (0 <? length (matched ++ xyna))%nat eqn:H2.
    + cbn [fst snd]. apply (split_by_flag_perm Merged.is_XYNA).
    + exfalso. rewrite length_app in H2. apply Nat.ltb_ge in H2.
      apply orb_true_iff in H1. destruct H1 as [H1 | H1];
        apply Nat.ltb_lt in H1; lia.
  - apply orb_false_iff in H1. destruct H1 as [Hm Hx].
    apply Nat.ltb_ge in Hm, Hx.
    destruct matched; [| simpl in Hm; lia].
    destruct xyna; [| simpl in Hx; lia].
    apply perm_nil.
Qed.
End MinMaxFacts.

Section Trimming.
Variable round2 : Q -> Q.

(** Rounding a rounded value gives the same number. *)
Hypothesis round2_idem : forall x, (round2 (round2 x) == round2 x)%Q.

Lemma rounded_value_fixed (f : Merged.row -> option Q)
      (group : list Merged.row) (v : Q) :
  In (Some v) (map (fun m => round_cell round2 (f m)) group) ->
  (round2 v == v)%Q.
Proof.
  intros Hin. apply in_map_iff in Hin. destruct Hin as [m [Hm _]].
  destruct (f m) as [y|]; simpl in Hm; [| discriminate].
  inversion Hm. apply round2_idem.
Qed.

Lemma min_mask_rule (combined : list Merged.row) (m : Merged.row) (a : Q) :
  In m combined ->
  grossFrom_rounded round2 m = Some a ->
  let group := group_rows (group_key m) combined in
  min_mask round2 (group_stats round2 combined) m = true <->
  (forall m2 v2, In m2 group -> grossFrom_rounded round2 m2 = Some v2 ->
                 (a <= v2)%Q) /\
  1 < series_count (map Merged.GrossFrom group).
Proof.
  intros Hin Ha group. unfold min_mask.
  rewrite (stats_of_group round2 combined m Hin). fold group.
  unfold agg. cbn [grossFrom_rounded_min grossFrom_rounded_count].
  rewrite <- (series_count_rounded round2 Merged.GrossFrom group).
  change (map (fun m0 => round_cell round2 (Merged.GrossFrom m0)) group)
    with (map (grossFrom_rounded round2) group).
  set (froms := map (grossFrom_rounded round2) group).
  assert (Hmem : forall m2 v2, In m2 group ->
                   grossFrom_rounded round2 m2 = Some v2 ->
                   In (Some v2) froms).
  { intros m2 v2 H2 Hv2. rewrite <- Hv2. now apply in_map. }
  assert (Ha' : In (Some a) froms)
    by (apply (Hmem m); [now apply group_rows_In | assumption]).
  destruct (series_min froms) as [v|] eqn:Hmin;
    [| exfalso; exact (series_min_None froms Hmin a Ha')].
  destruct (series_min_Some froms v Hmin) as [Hv Hle].
  pose proof (rounded_value_fixed Merged.GrossFrom group v Hv) as Hfix.
  rewrite Ha. cbn [round_cell option_map num_eqb].
  rewrite andb_true_iff, Qeq_bool_iff, Nat.ltb_lt. split.
  - intros [Heq Hc]. split; [| exact Hc]. intros m2 v2 H2 Hv2.
    apply Qle_trans with v; [| apply Hle; eauto].
    apply Qle_lteq. right. now apply Qeq_trans with (round2 v).
  - intros [Hleast Hc]. split; [| exact Hc].
    apply Qeq_trans with v; [| now apply Qeq_sym].
    apply in_map_iff in Hv. destruct Hv as [m2 [Hv2 H2]].
    apply Qle_antisym; [exact (Hleast m2 v H2 Hv2) | now apply Hle].
Qed.



End Trimming.

Lemma rint_inject (k : Z) : rint (inject_Z k) = k.
Proof.
  unfold rint. rewrite Qfloor_Z.
  assert (E : Qcompare (inject_Z k - inject_Z k) (1 # 2) = Lt).
  { rewrite <- Qlt_alt.
    setoid_replace (inject_Z k - inject_Z k)%Q with 0%Q by ring.
    reflexivity. }
  rewrite E. reflexivity.
Qed.

Lemma rint_comp (p q : Q) : (p == q)%Q -> rint p = rint q.
Proof.
  intros E. unfold rint. rewrite <- (Qfloor_comp p q E).
  assert (H : Qcompare (p - inject_Z (Qfloor p)) (1 # 2)
              = Qcompare (q - inject_Z (Qfloor p)) (1 # 2)).
  { apply Qcompare_comp; [| reflexivity]. unfold Qminus.
    apply Qplus_comp; [exact E | reflexivity]. }
  rewrite H. reflexivity.
Qed.

Lemma round_half_even_idem (x : Q) :
  (round_half_even (round_half_even x) == round_half_even x)%Q.
Proof.
  unfold round_half_even.
  set (k := rint (x * inject_Z 100)).
  assert (E : ((k # 100) * inject_Z 100 == inject_Z k)%Q).
  { unfold Qeq, inject_Z. simpl. lia. }
  rewrite (rint_comp _ _ E), rint_inject. reflexivity.
Qed.



(* ================================================================ *)
(** * Max children adjustment *)
(* ================================================================ *)

Lemma rstrip_no_space (s : string) : no_space s = true -> rstrip s = s.
Proof.
  induction s as [|c s' IH]; intros H; [reflexivity |].
  simpl in H. apply andb_true_iff in H. destruct H as [Hc Hs].
  simpl. rewrite (IH Hs). destruct s'; [| reflexivity].
  apply negb_true_iff in Hc. now rewrite Hc.
Qed.

Lemma strip_no_space (s : string) : no_space s = true -> strip s = s.
Proof.
  intros H. unfold strip.
  assert (Hl : lstrip s = s).
  { destruct s as [|c s']; [reflexivity |]. simpl in *.
    apply andb_true_iff in H. destruct H as [Hc _].
    apply negb_true_iff in Hc. now rewrite Hc. }
  rewrite Hl. now apply rstrip_no_space.
Qed.

Lemma string_of_uint_no_space (d : Decimal.uint) :
  no_space (NilEmpty.string_of_uint d) = true.
Proof. induction d; simpl; auto. Qed.

Lemma str_of_int_no_space (n : Z) : no_space (str_of_int n) = true.
Proof.
  unfold str_of_int, NilZero.string_of_int, NilZero.string_of_uint.
  destruct (Z.to_int n) as [d | d]; destruct d; simpl;
    auto using string_of_uint_no_space.
Qed.

Lemma str_of_int_not_empty (n : Z) : String.eqb (str_of_int n) "" = false.
Proof.
  unfold str_of_int, NilZero.string_of_int, NilZero.string_of_uint.
  destruct (Z.to_int n) as [d | d]; destruct d; reflexivity.
Qed.

Lemma strip_str_of_int (n : Z) : strip (str_of_int n) = str_of_int n.
Proof. apply strip_no_space, str_of_int_no_space. Qed.

Lemma adjust_children_map (status : string) (max_children : option Z)
      (rows : list Wide.row) :
  adjust_children status max_children rows
  = map (adjust_row status max_children) rows.
Proof.
  unfold adjust_children, adjust_row.
  destruct max_children as [n|]; [| now rewrite map_id].
  destruct (truthy (Some n)); [| now rewrite map_id].
  rewrite strip_str_of_int, str_of_int_not_empty. reflexivity.
Qed.

Lemma max_children_adjustment_map (single_max_children
                                   married_max_children : option Z)
      (rows : list Wide.row) :
  max_children_adjustment single_max_children married_max_children rows
  = map (fun w => adjust_row "MARRIED" married_max_children
                             (adjust_row "SINGLE" single_max_children w))
        rows.
Proof.
  unfold max_children_adjustment.
  destruct (truthy single_max_children || truthy married_max_children) eqn:Ht.
  - now rewrite !adjust_children_map, map_map.
  - apply orb_false_iff in Ht. destruct Ht as [Hs Hm].
    rewrite <- (map_id rows) at 1. apply map_ext. intros w.
    unfold adjust_row.
    destruct single_max_children, married_max_children;
      rewrite ?Hs, ?Hm; reflexivity.
Qed.

(** The adjustment writes [numberOfChildren] and nothing else. *)
Lemma adjust_row_other_columns (status : string) (max_children : option Z)
      (w : Wide.row) :
  Wide.set_numberOfChildren "" (adjust_row status max_children w)
  = Wide.set_numberOfChildren "" w.
Proof.
  unfold adjust_row. destruct max_children as [n|]; [| reflexivity].
  destruct (_ && _); reflexivity.
Qed.

(** C7.  With positive thresholds, the adjustment keeps the rows and
    their order and writes the empty string into [numberOfChildren] of
    exactly the rows that are SINGLE with a count equal to the text of
    the single threshold, or MARRIED with a count equal to the text of
    the married threshold, marital status and count being those before
    the adjustment; every other row is returned as it was. *)
Theorem collapse_rule (single_max_children married_max_children : option Z)
        (rows : list Wide.row) :
  (forall n, single_max_children = Some n -> (0 < n)%Z) ->
  (forall n, married_max_children = Some n -> (0 < n)%Z) ->
  max_children_adjustment single_max_children married_max_children rows
  = map (fun w =>
           if (String.eqb (Wide.maritalStatus w) "SINGLE"
               && at_threshold single_max_children (Wide.numberOfChildren w))
              || (String.eqb (Wide.maritalStatus w) "MARRIED"
                  && at_threshold married_max_children
                                  (Wide.numberOfChildren w))
           then Wide.set_numberOfChildren "" w
           else w)
        rows.
Proof.
  intros Hs Hm. rewrite max_children_adjustment_map. apply map_ext. intros w.
  assert (Hts : forall n, single_max_children = Some n ->
                          truthy single_max_children = true).
  { intros n Hn. specialize (Hs n Hn). subst. simpl.
    apply negb_true_iff, Z.eqb_neq. lia. }
  assert (Htm : forall n, married_max_children = Some n ->
                          truthy married_max_children = true).
  { intros n Hn. specialize (Hm n Hn). subst. simpl.
    apply negb_true_iff, Z.eqb_neq. lia. }
  unfold adjust_row, at_threshold.
  destruct single_max_children as [s|], married_max_children as [m|];
    rewrite ?(Hts _ eq_refl), ?(Htm _ eq_refl); cbn [andb orb];
    rewrite ?andb_false_r, ?orb_false_r; cbn [orb].
  - destruct (String.eqb (Wide.maritalStatus w) "SINGLE") eqn:Es;
      cbn [andb orb].
    + apply String.eqb_eq in Es.
      destruct (String.eqb (Wide.numberOfChildren w) (str_of_int s));
        cbn [Wide.maritalStatus Wide.set_numberOfChildren];
        rewrite Es; reflexivity.
    + reflexivity.
  - reflexivity.
  - reflexivity.
  - reflexivity.
Qed.

Lemma collapse_rule_witness :
  map Wide.numberOfChildren
      (max_children_adjustment (Some 3%Z) None
         (map (wide_row None None)
              [Sample.matched "L1" None None;
               joined (long_row "Single3" "Married2" Sample.us)
                      (Some "USNA") (Some "L1") (Some "CITY");
               joined (long_row "Married3" "Married3" Sample.us)
                      (Some "USNA") (Some "L1") (Some "CITY")]))
  = ["0"; ""; "3"].
Proof.
  rewrite (collapse_rule (Some 3%Z) None).
  - reflexivity.
  - intros n Hn. inversion Hn. lia.
  - intros n Hn. discriminate.
Defined.

(* ================================================================ *)
(** * From raw rows to output rows *)
(* ================================================================ *)

Lemma derived_from_columns (r : Raw.row) (m : Merged.row) :
  derived_from r m ->
  Merged.Country m = Raw.Country r /\
  Merged.region m = Raw.region r /\
  Merged.region_clean m = fillna "NA" (Raw.region r) /\
  Merged.location_key m = str_add (Raw.Country r) (fillna "NA" (Raw.region r)) /\
  Merged.is_XYNA m = cell_eqb (Merged.location_key m) "XYNA".
Proof.
  intros [fs [src [key [uuid [type [_ H]]]]]].
  pose proof (f_equal Merged.Country H) as H1.
  pose proof (f_equal Merged.region H) as H2.
  pose proof (f_equal Merged.region_clean H) as H3.
  pose proof (f_equal Merged.location_key H) as H4.
  pose proof (f_equal Merged.is_XYNA H) as H5.
  simpl in H1, H2, H3, H4, H5. rewrite H5, H4. auto.
Qed.

Lemma merged_data_derived (columns : list string) (rows : list Raw.row)
      (location_rows : list Mapping.row) (m : Merged.row) :
  In m (merged_data (long_data columns rows) location_rows) ->
  exists r, In r rows /\ derived_from r m.
Proof.
  intros Hm. apply merged_data_In in Hm. destruct Hm as [e [He Hm]].
  apply long_data_In in He. destruct He as [fs [src [r [Hentry [_ [Hr He]]]]]].
  apply merge_row_left in Hm. destruct Hm as [key [uuid [type Hm]]].
  exists r. split; [assumption |]. exists fs, src, key, uuid, type.
  subst. auto.
Qed.

Section Provenance.
Variable round2 : Q -> Q.

Lemma remove_row_derived (gs : list (string * stats)) (r : Raw.row)
      (m : Merged.row) :
  derived_from r m -> derived_from r (remove_row round2 gs m).
Proof.
  intros [fs [src [key [uuid [type [Hentry H]]]]]].
  exists fs, src, key, uuid, type. split; [assumption |].
  now rewrite remove_row_other_columns.
Qed.

Lemma final_base_derived (columns : list string) (rows : list Raw.row)
      (location_rows : list Mapping.row) (remove_min_max : bool)
      (m : Merged.row) :
  In m (final_base round2 remove_min_max
          (merged_data (long_data columns rows) location_rows)) ->
  exists r, In r rows /\ derived_from r m.
Proof.
  set (merged := merged_data (long_data columns rows) location_rows).
  intros Hm. unfold final_base in Hm.
  pose proof (min_max_removal_perm round2 remove_min_max
                (successfully_matched merged) (xyna_records merged)) as Hp.
  destruct (min_max_removal round2 remove_min_max
              (successfully_matched merged) (xyna_records merged))
    as [matched xyna].
  cbn [fst snd] in Hp. apply (Permutation_in _ Hp) in Hm.
  assert (Hcombined : forall m0,
             In m0 (successfully_matched merged ++ xyna_records merged) ->
             exists r, In r rows /\ derived_from r m0).
  { intros m0 H0. apply (merged_data_derived columns rows location_rows).
    fold merged. apply in_app_or in H0.
    destruct H0 as [H0 | H0]; apply filter_In in H0; tauto. }
  destruct remove_min_max.
  - unfold remove_min_max_rows in Hm. apply in_map_iff in Hm.
    destruct Hm as [m0 [Heq H0]]. subst m.
    destruct (Hcombined m0 H0) as [r [Hr Hd]].
    exists r. split; [assumption | now apply remove_row_derived].
  - now apply Hcombined.
Qed.
End Provenance.

Lemma Forall2_map_right {A B : Type} (R : A -> B -> Prop) (f : A -> B)
      (l : list A) :
  (forall x, In x l -> R x (f x)) -> Forall2 R l (map f l).
Proof.
  induction l as [|x t IH]; intros H; simpl; constructor.
  - apply H. now left.
  - apply IH. intros y Hy. apply H. now right.
Qed.

(** Every table of final rows is, up to the order of the rows, the
    projection of the table before selection. *)
Lemma final_output_perm (valid_from_date valid_to_date : option string)
      (single_max_children married_max_children : option Z)
      (final_base : list Merged.row) :
  Permutation
    (final_output valid_from_date valid_to_date
                  single_max_children married_max_children final_base)
    (map final_row
         (wide_output valid_from_date valid_to_date
                      single_max_children married_max_children final_base)).
Proof.
  unfold final_output. destruct final_base as [|m t].
  - unfold wide_output. rewrite max_children_adjustment_map. apply perm_nil.
  - cbn [length Nat.ltb Nat.leb]. apply sort_values_perm.
Qed.

(** The table before selection, row by row. *)
Lemma wide_output_rows (valid_from_date valid_to_date : option string)
      (single_max_children married_max_children : option Z)
      (final_base : list Merged.row) :
  wide_output valid_from_date valid_to_date
              single_max_children married_max_children final_base
  = map (fun m => adjust_row "MARRIED" married_max_children
                    (adjust_row "SINGLE" single_max_children
                       (wide_row valid_from_date valid_to_date m)))
        final_base.
Proof.
  unfold wide_output. now rewrite max_children_adjustment_map, map_map.
Qed.

Lemma adjusted_columns (single_max_children married_max_children : option Z)
      (w : Wide.row) :
  let w' := adjust_row "MARRIED" married_max_children
              (adjust_row "SINGLE" single_max_children w) in
  Wide.base w' = Wide.base w /\
  Wide.serviceType w' = Wide.serviceType w /\
  Wide.userNotes w' = Wide.userNotes w.
Proof.
  intros w'.
  assert (H : Wide.set_numberOfChildren "" w' = Wide.set_numberOfChildren "" w).
  { subst w'. now rewrite !adjust_row_other_columns. }
  pose proof (f_equal Wide.base H) as H1.
  pose proof (f_equal Wide.serviceType H) as H2.
  pose proof (f_equal Wide.userNotes H) as H3.
  simpl in H1, H2, H3. auto.
Qed.




Section Outputs.
Variable round2 : Q -> Q.
Variables (raw_data : Raw.table) (location_data : Mapping.table).
Variables (valid_from_date valid_to_date : option string).
Variable remove_min_max : bool.
Variables (single_max_children married_max_children : option Z).

Let long := long_data (clean_columns (Raw.columns raw_data))
                      (Raw.rows raw_data).
Let merged := merged_data long (Mapping.rows location_data).
Let base := final_base round2 remove_min_max merged.
Let wide := wide_output valid_from_date valid_to_date
                        single_max_children married_max_children base.

(** C6.  When the call returns, the final table is, up to the order of
    its rows, the projection of one row per row of the base table
    (Matched and Exception after Step 7), and every base row comes from
    a raw row.  When the location key built from that raw row is XYNA,
    the final row has the empty string as LocationId, WORLD as
    LocationType and GEC_POLICY as ServiceType, whatever the mapping
    table holds; otherwise its ServiceType is the empty string. *)
Theorem exception_rows_forced (log : list message)
        (missing : list Missing.row) (final : list Final.row) :
  process_excel_workflow round2 raw_data location_data
    valid_from_date valid_to_date remove_min_max
    single_max_children married_max_children
  = (log, Returned missing final) ->
  Permutation final (map final_row wide) /\
  Forall2
    (fun m w =>
       exists r, In r (Raw.rows raw_data) /\ derived_from r m /\
         let key := str_add (Raw.Country r) (fillna "NA" (Raw.region r)) in
         let f := final_row w in
         (key = Some "XYNA" ->
          Final.locationUuid f = Some "" /\
          Final.locationType f = Some "WORLD" /\
          Final.serviceType f = "GEC_POLICY") /\
         (key <> Some "XYNA" -> Final.serviceType f = ""))
    base wide.
Proof.
  intros Hret. apply process_returned in Hret.
  destruct Hret as [_ [_ Hfinal]]. split.
  - rewrite Hfinal. apply final_output_perm.
  - unfold wide. rewrite wide_output_rows. apply Forall2_map_right.
    intros m Hm.
    destruct (final_base_derived round2 _ _ _ _ m Hm) as [r [Hr Hd]].
    exists r. split; [assumption |]. split; [assumption |].
    destruct (derived_from_columns r m Hd) as [_ [_ [_ [Hkey Hx]]]].
    destruct (adjusted_columns single_max_children married_max_children
                (wide_row valid_from_date valid_to_date m))
      as [Hb [Hs _]].
    cbn zeta. unfold final_row.
    cbn [Final.locationUuid Final.locationType Final.serviceType].
    rewrite Hb, Hs. rewrite <- Hkey. unfold wide_row.
    cbn [Wide.base Wide.serviceType]. rewrite Hx. split.
    + intros Hk. rewrite Hk. simpl. auto.
    + intros Hk.
      destruct (cell_eqb (Merged.location_key m) "XYNA") eqn:Hc;
        [| reflexivity].
      apply cell_eqb_eq in Hc. contradiction.
Qed.


(** C10.  When the call returns, the missing-locations table is, up to
    the order of its rows, the projection of the unmatched rows, and
    each of them comes from a raw row: its Region is the region cell of
    that raw row as it was read, missing when the cell is missing.  The
    region with NA for a missing cell is the column [region_clean] of
    the joined table, which the location key is built from and which
    the output does not have. *)
Theorem missing_region_original (log : list message)
        (missing : list Missing.row) (final : list Final.row) :
  process_excel_workflow round2 raw_data location_data
    valid_from_date valid_to_date remove_min_max
    single_max_children married_max_children
  = (log, Returned missing final) ->
  Permutation missing (map missing_row (missing_locations merged)) /\
  forall m, In m (missing_locations merged) ->
    exists r, In r (Raw.rows raw_data) /\ derived_from r m /\
      Missing.region (missing_row m) = Raw.region r /\
      (Raw.region r = None -> Missing.region (missing_row m) = None) /\
      Merged.region_clean m = fillna "NA" (Raw.region r) /\
      Missing.location_key (missing_row m)
      = str_add (Raw.Country r) (Merged.region_clean m).
Proof.
  intros Hret. apply process_returned in Hret.
  destruct Hret as [_ [Hmissing _]]. split.
  - rewrite Hmissing. unfold missing_output.
    destruct (missing_locations _) as [|m t]; [apply perm_nil |].
    cbn [length Nat.ltb Nat.leb]. apply sort_values_perm.
  - intros m Hm. apply filter_In in Hm. destruct Hm as [Hm _].
    destruct (merged_data_derived _ _ _ m Hm) as [r [Hr Hd]].
    exists r. split; [assumption |]. split; [assumption |].
    destruct (derived_from_columns r m Hd) as [_ [Hreg [Hclean [Hkey _]]]].
    unfold missing_row. cbn [Missing.region Missing.location_key].
    rewrite Hclean. repeat split; auto. intros Hnone. congruence.
Qed.
End Outputs.

Lemma exception_rows_forced_witness :
  exists final,
    Permutation final
      (map final_row
         (wide_output None None None None
            (final_base round_half_even true
               (merged_data
                  (long_data (clean_columns (Raw.columns Sample.raw_table))
                             (Raw.rows Sample.raw_table))
                  (Mapping.rows Sample.mapping_table))))).
Proof.
  eexists.
  refine (proj1 (exception_rows_forced round_half_even
                   Sample.raw_table Sample.mapping_table
                   None None true None None _ _ _ _)).
  cbv. reflexivity.
Defined.


Lemma missing_region_original_witness :
  exists missing,
    Permutation missing
      (map missing_row
         (missing_locations
            (merged_data
               (long_data (clean_columns (Raw.columns Sample.raw_table))
                          (Raw.rows Sample.raw_table))
               (Mapping.rows Sample.empty_mapping)))).
Proof.
  eexists.
  refine (proj1 (missing_region_original round_half_even
                   Sample.raw_table Sample.empty_mapping
                   None None false None None _ _ _ _)).
  cbv. reflexivity.
Defined.

(** A raw row without a region: the key is built with NA, the Region of
    the missing-locations row stays missing. *)
Example missing_region_stays_null :
  match snd (process_excel_workflow round_half_even
               {| Raw.columns := Sample.header; Raw.rows := [Sample.us] |}
               Sample.empty_mapping None None false None None) with
  | Returned missing final =>
      map (fun x => (Missing.region x, Missing.location_key x)) missing
      = repeat (None, Some "USNA") 12
  | _ => False
  end.
Proof. vm_compute. reflexivity. Qed.

(* ================================================================ *)
(** * Worked inputs *)
(* ================================================================ *)

(** The raw row XY with a missing region has the key XYNA; with a mapping
    row for XYNA every final row still has the forced location, service
    type and notes.  The twelve records are in two partitions each, which
    makes twenty-four final rows. *)
Example xyna_rows_forced :
  match snd (process_excel_workflow round_half_even
               {| Raw.columns := Sample.header; Raw.rows := [Sample.xy] |}
               Sample.mapping_table None None false None None) with
  | Returned missing final =>
      length final = 24 /\
      forallb (fun f =>
                 key_eqb (Final.locationUuid f) (Some "")
                 && key_eqb (Final.locationType f) (Some "WORLD")
                 && String.eqb (Final.serviceType f) "GEC_POLICY"
                 && String.eqb (Final.userNotes f) "MercerLocation: GEC")
              final = true
  | _ => False
  end.
Proof. vm_compute. auto. Qed.

(** Keys of one, four and no characters. *)
Example user_notes_short_key :
  format_user_notes (Some "U") = "MercerLocation: U" /\
  format_user_notes (Some "USNA") = "MercerLocation: US-NA" /\
  format_user_notes (Some "") = "MercerLocation: ".
Proof. vm_compute. auto. Qed.

(** A group of one row keeps both values; in a group of three rows with
    GrossFrom 10.00, 10.00 and 20.00 the two rows at 10.00 lose it. *)
Example trimming_groups :
  let low := Sample.matched "L1" (Some (10 # 1)%Q) (Some (50 # 1)%Q) in
  let high := Sample.matched "L1" (Some (20 # 1)%Q) (Some (60 # 1)%Q) in
  let alone := Sample.matched "L2" (Some (5 # 1)%Q) (Some (90 # 1)%Q) in
  map (fun m => (notna (Merged.GrossFrom m), notna (Merged.GrossTo m)))
      (remove_min_max_rows round_half_even [low; low; high; alone])
  = [(false, true); (false, true); (true, false); (true, true)].
Proof. vm_compute. reflexivity. Qed.

(* ================================================================ *)
(** * Further properties: order of the output tables *)
(* ================================================================ *)

Section SortedFacts.
Context {A : Type}.
Variable le : A -> A -> bool.
Hypothesis le_total : forall x y, le x y = false -> le y x = true.

Lemma insert_sorted_sorted (x : A) (l : list A) :
  Sorted (fun a b => le a b = true) l ->
  Sorted (fun a b => le a b = true) (insert_sorted le x l).
Proof.
  induction l as [|y t IH]; intros Hs; simpl.
  - repeat constructor.
  - inversion Hs as [|? ? Ht Hhd]; subst.
    destruct (le x y) eqn:Hxy.
    + constructor; [assumption | now constructor].
    + constructor; [now apply IH |].
      destruct t as [|z t']; simpl.
      * constructor. now apply le_total.
      * destruct (le x z); constructor.
        -- now apply le_total.
        -- now inversion Hhd.
Qed.

Lemma sort_values_sorted (l : list A) :
  Sorted (fun a b => le a b = true) (sort_values le l).
Proof.
  induction l as [|x t IH]; simpl.
  - constructor.
  - now apply insert_sorted_sorted.
Qed.
End SortedFacts.

Lemma compare_cell_antisym (na_first : bool) (a b : option string) :
  compare_cell na_first b a = CompOpp (compare_cell na_first a b).
Proof.
  destruct a as [x|], b as [y|], na_first; simpl; try reflexivity;
    apply String.compare_antisym.
Qed.

Lemma then_by_opp (c1 c2 : comparison) :
  then_by (CompOpp c1) (CompOpp c2) = CompOpp (then_by c1 c2).
Proof. destruct c1; reflexivity. Qed.

Lemma is_le_opp (c : comparison) : is_le c = false -> is_le (CompOpp c) = true.
Proof. destruct c; simpl; congruence. Qed.

Lemma final_le_total (a b : Final.row) :
  final_le a b = false -> final_le b a = true.
Proof.
  unfold final_le. intros H.
  rewrite (compare_cell_antisym true (Final.locationUuid a)),
    (String.compare_antisym (Final.maritalStatus b)),
    (String.compare_antisym (Final.numberOfChildren b)), !then_by_opp.
  now apply is_le_opp.
Qed.

Lemma missing_le_total (a b : Missing.row) :
  missing_le a b = false -> missing_le b a = true.
Proof.
  unfold missing_le. intros H.
  rewrite (compare_cell_antisym false (Missing.Country a)),
    (compare_cell_antisym false (Missing.region a)),
    (String.compare_antisym (Missing.family_status b)), !then_by_opp.
  now apply is_le_opp.
Qed.

Section Order.
Variable round2 : Q -> Q.

(** X1.  The final table is returned in order: each row is at or before
    its successor in the order by LocationId (a missing one first), then
    MaritalStatus, then ChildrenCount, strings compared character by
    character. *)
Theorem final_output_sorted
        (raw_data : Raw.table) (location_data : Mapping.table)
        (valid_from_date valid_to_date : option string)
        (remove_min_max : bool)
        (single_max_children married_max_children : option Z)
        (log : list message)
        (missing : list Missing.row) (final : list Final.row) :
  process_excel_workflow round2 raw_data location_data
    valid_from_date valid_to_date remove_min_max
    single_max_children married_max_children
  = (log, Returned missing final) ->
  Sorted (fun a b => final_le a b = true) final.
Proof.
  intros Hret. apply process_returned in Hret.
  destruct Hret as [_ [_ Hfinal]]. rewrite Hfinal. unfold final_output.
  destruct (0 <? length _)%nat; [| constructor].
  apply sort_values_sorted. exact final_le_total.
Qed.

(** X2.  The missing-locations table is returned in order: each row is
    at or before its successor in the order by Country, then Region (a
    missing cell last in both), then FamilyStatus. *)
Theorem missing_output_sorted
        (raw_data : Raw.table) (location_data : Mapping.table)
        (valid_from_date valid_to_date : option string)
        (remove_min_max : bool)
        (single_max_children married_max_children : option Z)
        (log : list message)
        (missing : list Missing.row) (final : list Final.row) :
  process_excel_workflow round2 raw_data location_data
    valid_from_date valid_to_date remove_min_max
    single_max_children married_max_children
  = (log, Returned missing final) ->
  Sorted (fun a b => missing_le a b = true) missing.
Proof.
  intros Hret. apply process_returned in Hret.
  destruct Hret as [_ [Hmissing _]]. rewrite Hmissing. unfold missing_output.
  destruct (0 <? length _)%nat; [| constructor].
  apply sort_values_sorted. exact missing_le_total.
Qed.
End Order.

Lemma final_output_sorted_witness :
  exists final, Sorted (fun a b => final_le a b = true) final /\
                length final = 36.
Proof.
  eexists. split.
  - refine (final_output_sorted round_half_even
              Sample.raw_table Sample.mapping_table
              None None true None None _ _ _ _).
    cbv. reflexivity.
  - reflexivity.
Defined.

Lemma missing_output_sorted_witness :
  exists missing, Sorted (fun a b => missing_le a b = true) missing /\
                  length missing = 12.
Proof.
  eexists. split.
  - refine (missing_output_sorted round_half_even
              Sample.raw_table Sample.empty_mapping
              None None false None None _ _ _ _).
    cbv. reflexivity.
  - reflexivity.
Defined.

(* ================================================================ *)
(** * Further properties: sizes and coverage *)
(* ================================================================ *)


Lemma long_data_length (columns : list string) (rows : list Raw.row) :
  length (long_data columns rows)
  = length (present_entries columns) * length rows.
Proof.
  unfold long_data. induction (present_entries columns) as [|e t IH].
  - reflexivity.
  - simpl. now rewrite length_app, length_map, IH.
Qed.

Lemma merged_data_length_ge (long : list Long.row)
      (location_rows : list Mapping.row) :
  length long <= length (merged_data long location_rows).
Proof.
  unfold merged_data. induction long as [|e t IH]; [reflexivity |].
  simpl. rewrite length_app, merge_row_length. lia.
Qed.

Lemma cover_lengths {A : Type} (p q r : A -> bool) (l : list A) :
  (forall x, In x l -> p x || q x || r x = true) ->
  length l
  <= length (filter p l) + length (filter q l) + length (filter r l).
Proof.
  induction l as [|x t IH]; intros H; [reflexivity |].
  assert (Hx := H x (or_introl eq_refl)).
  assert (Ht : forall y, In y t -> p y || q y || r y = true)
    by (intros y Hy; apply H; now right).
  specialize (IH Ht). simpl.
  destruct (p x), (q x), (r x); simpl in *; try discriminate; lia.
Qed.

Lemma masks_cover (m : Merged.row) :
  matched_mask m || xyna_mask m || missing_mask m = true.
Proof.
  unfold missing_mask, matched_mask, isna.
  destruct (notna (Merged.location_uuid m)), (xyna_mask m); reflexivity.
Qed.

Section Sizes.
Variable round2 : Q -> Q.

Lemma final_base_perm (remove_min_max : bool) (merged : list Merged.row) :
  Permutation
    (final_base round2 remove_min_max merged)
    (if remove_min_max
     then remove_min_max_rows round2
            (successfully_matched merged ++ xyna_records merged)
     else successfully_matched merged ++ xyna_records merged).
Proof.
  unfold final_base.
  pose proof (min_max_removal_perm round2 remove_min_max
                (successfully_matched merged) (xyna_records merged)) as Hp.
  destruct (min_max_removal round2 remove_min_max
              (successfully_matched merged) (xyna_records merged)).
  exact Hp.
Qed.

Lemma final_base_length (remove_min_max : bool) (merged : list Merged.row) :
  length (final_base round2 remove_min_max merged)
  = length (successfully_matched merged) + length (xyna_records merged).
Proof.
  rewrite (Permutation_length (final_base_perm remove_min_max merged)).
  destruct remove_min_max.
  - unfold remove_min_max_rows. now rewrite length_map, length_app.
  - apply length_app.
Qed.

(** Where a row of the base table comes from: a joined row that is in
    the Matched or in the Exception partition, with the same columns
    apart from GrossFrom and GrossTo. *)
Lemma final_base_origin (remove_min_max : bool) (merged : list Merged.row)
      (m : Merged.row) :
  In m (final_base round2 remove_min_max merged) ->
  exists m0,
    In m0 merged /\
    (matched_mask m0 = true \/ xyna_mask m0 = true) /\
    Merged.set_GrossFrom None (Merged.set_GrossTo None m)
    = Merged.set_GrossFrom None (Merged.set_GrossTo None m0) /\
    (Merged.GrossFrom m = None \/ Merged.GrossFrom m = Merged.GrossFrom m0) /\
    (Merged.GrossTo m = None \/ Merged.GrossTo m = Merged.GrossTo m0) /\
    (remove_min_max = false -> m = m0).
Proof.
  intros Hm. apply (Permutation_in _ (final_base_perm remove_min_max merged))
    in Hm.
  assert (Hcombined : forall m0,
             In m0 (successfully_matched merged ++ xyna_records merged) ->
             In m0 merged /\
             (matched_mask m0 = true \/ xyna_mask m0 = true)).
  { intros m0 H0. apply in_app_or in H0.
    destruct H0 as [H0 | H0]; apply filter_In in H0; tauto. }
  destruct remove_min_max.
  - unfold remove_min_max_rows in Hm. apply in_map_iff in Hm.
    destruct Hm as [m0 [Heq H0]]. subst m. exists m0.
    destruct (Hcombined m0 H0) as [Hin Hmask].
    split; [assumption |]. split; [assumption |].
    split; [apply remove_row_other_columns |].
    rewrite remove_row_GrossFrom, remove_row_GrossTo.
    split; [destruct (min_mask _ _ _); auto |].
    split; [destruct (max_mask _ _ _); auto | discriminate].
  - exists m. destruct (Hcombined m Hm) as [Hin Hmask]. repeat split; auto.
Qed.

(** The rows of the final table are the projections of the adjusted
    wide rows of the base table. *)
Lemma final_rows_from_base
      (raw_data : Raw.table) (location_data : Mapping.table)
      (valid_from_date valid_to_date : option string)
      (remove_min_max : bool)
      (single_max_children married_max_children : option Z)
      (log : list message)
      (missing : list Missing.row) (final : list Final.row) :
  process_excel_workflow round2 raw_data location_data
    valid_from_date valid_to_date remove_min_max
    single_max_children married_max_children
  = (log, Returned missing final) ->
  forall f, In f final ->
    exists m,
      In m (final_base round2 remove_min_max
              (merged_data
                 (long_data (clean_columns (Raw.columns raw_data))
                            (Raw.rows raw_data))
                 (Mapping.rows location_data))) /\
      f = final_row
            (adjust_row "MARRIED" married_max_children
               (adjust_row "SINGLE" single_max_children
                  (wide_row valid_from_date valid_to_date m))).
Proof.
  intros Hret f Hf. apply process_returned in Hret.
  destruct Hret as [_ [_ Hfinal]]. subst final.
  apply (Permutation_in _ (final_output_perm _ _ _ _ _)) in Hf.
  rewrite wide_output_rows, map_map in Hf. apply in_map_iff in Hf.
  destruct Hf as [m [Heq Hm]]. exists m. auto.
Qed.

(** X3.  Neither the min/max removal nor the children adjustment nor the
    ordering adds or drops a row: the final table has as many rows as the
    Matched and the Exception partition together, the missing-locations
    table as many as the Unmatched partition. *)
Theorem output_sizes
        (raw_data : Raw.table) (location_data : Mapping.table)
        (valid_from_date valid_to_date : option string)
        (remove_min_max : bool)
        (single_max_children married_max_children : option Z)
        (log : list message)
        (missing : list Missing.row) (final : list Final.row) :
  process_excel_workflow round2 raw_data location_data
    valid_from_date valid_to_date remove_min_max
    single_max_children married_max_children
  = (log, Returned missing final) ->
  let merged :=
    merged_data (long_data (clean_columns (Raw.columns raw_data))
                           (Raw.rows raw_data))
                (Mapping.rows location_data) in
  length final
  = length (successfully_matched merged) + length (xyna_records merged) /\
  length missing = length (missing_locations merged).
Proof.
  intros Hret merged. apply process_returned in Hret.
  destruct Hret as [_ [Hmissing Hfinal]]. fold merged in Hmissing, Hfinal.
  split.
  - rewrite Hfinal, (Permutation_length (final_output_perm _ _ _ _ _)).
    now rewrite wide_output_rows, !length_map, final_base_length.
  - rewrite Hmissing. unfold missing_output.
    destruct (missing_locations merged) as [|m t]; [reflexivity |].
    cbn [length Nat.ltb Nat.leb].
    now rewrite (Permutation_length (sort_values_perm _ _)), length_map.
Qed.

(** X4.  No expanded record is lost: the two returned tables together
    have at least as many rows as the expansion, whatever the mapping
    table holds. *)
Theorem no_record_lost
        (raw_data : Raw.table) (location_data : Mapping.table)
        (valid_from_date valid_to_date : option string)
        (remove_min_max : bool)
        (single_max_children married_max_children : option Z)
        (log : list message)
        (missing : list Missing.row) (final : list Final.row) :
  process_excel_workflow round2 raw_data location_data
    valid_from_date valid_to_date remove_min_max
    single_max_children married_max_children
  = (log, Returned missing final) ->
  length (long_data (clean_columns (Raw.columns raw_data))
                    (Raw.rows raw_data))
  <= length final + length missing.
Proof.
  intros Hret. apply process_returned in Hret.
  destruct Hret as [_ [Hmissing Hfinal]].
  set (long := long_data _ _) in *.
  set (merged := merged_data long _) in *.
  assert (Hf : length final
               = length (successfully_matched merged)
                 + length (xyna_records merged)).
  { rewrite Hfinal, (Permutation_length (final_output_perm _ _ _ _ _)).
    now rewrite wide_output_rows, !length_map, final_base_length. }
  assert (Hm : length missing = length (missing_locations merged)).
  { rewrite Hmissing. unfold missing_output.
    destruct (missing_locations merged) as [|m t]; [reflexivity |].
    cbn [length Nat.ltb Nat.leb].
    now rewrite (Permutation_length (sort_values_perm _ _)), length_map. }
  pose proof (merged_data_length_ge long (Mapping.rows location_data)) as Hge.
  fold merged in Hge.
  pose proof (cover_lengths matched_mask xyna_mask missing_mask merged
                (fun m _ => masks_cover m)) as Hcover.
  unfold successfully_matched, xyna_records, missing_locations in Hf, Hm.
  lia.
Qed.

End Sizes.

Lemma output_sizes_witness :
  exists final : list Final.row, length final = 24 + 12.
Proof.
  eexists.
  refine (eq_trans
            (proj1 (output_sizes round_half_even
                      Sample.raw_table Sample.mapping_table
                      None None true None None _ _ _ _)) _).
  - cbv. reflexivity.
  - reflexivity.
Defined.

Lemma no_record_lost_witness :
  exists (final : list Final.row) (missing : list Missing.row),
    24 <= length final + length missing.
Proof.
  eexists. eexists.
  refine (no_record_lost round_half_even
            Sample.raw_table Sample.mapping_table
            None None true None None _ _ _ _).
  cbv. reflexivity.
Defined.


(* ================================================================ *)
(** * Further properties: what the final rows carry *)
(* ================================================================ *)


Lemma adjust_row_children (status : string) (max_children : option Z)
      (w : Wide.row) :
  Wide.maritalStatus (adjust_row status max_children w) = Wide.maritalStatus w
  /\
  (Wide.numberOfChildren (adjust_row status max_children w) = "" \/
   Wide.numberOfChildren (adjust_row status max_children w)
   = Wide.numberOfChildren w) /\
  (truthy max_children = false -> adjust_row status max_children w = w).
Proof.
  unfold adjust_row. destruct max_children as [n|]; [| auto].
  destruct (truthy (Some n)); cbn [andb].
  - destruct (_ && _); simpl; repeat split; auto; discriminate.
  - auto.
Qed.



Lemma family_status_columns (fs src : string) :
  In (fs, src) family_status_mapping ->
  In (upper (remove_trailing_digits fs)) ["SINGLE"; "MARRIED"] /\
  In (extract_children_count fs) ["0"; "1"; "2"; "3"; "4"; "5"].
Proof.
  unfold family_status_mapping. simpl. intros H.
  repeat (destruct H as [H | H];
          [inversion H; subst; vm_compute; tauto |]).
  contradiction.
Qed.

Section Carried.
Variable round2 : Q -> Q.
Variables (raw_data : Raw.table) (location_data : Mapping.table).
Variables (valid_from_date valid_to_date : option string).
Variable remove_min_max : bool.
Variables (single_max_children married_max_children : option Z).

Let columns := clean_columns (Raw.columns raw_data).
Let merged := merged_data (long_data columns (Raw.rows raw_data))
                          (Mapping.rows location_data).

(** The raw row, the alias entry and the joined row behind a row of the
    base table. *)
Lemma base_row_source (m : Merged.row) :
  In m (final_base round2 remove_min_max merged) ->
  exists r fs src key uuid type,
    In r (Raw.rows raw_data) /\
    In (fs, src) family_status_mapping /\
    has_column src columns = true /\
    let j := joined (long_row fs src r) key uuid type in
    In j merged /\
    (matched_mask j = true \/ xyna_mask j = true) /\
    Merged.set_GrossFrom None (Merged.set_GrossTo None m)
    = Merged.set_GrossFrom None (Merged.set_GrossTo None j) /\
    (Merged.GrossFrom m = None \/ Merged.GrossFrom m = Raw.GrossFrom r) /\
    (Merged.GrossTo m = None \/ Merged.GrossTo m = Raw.GrossTo r) /\
    (remove_min_max = false -> m = j).
Proof.
  intros Hm. apply final_base_origin in Hm.
  destruct Hm as [m0 [Hin [Hmask [Hother [Hfrom [Hto Hsame]]]]]].
  pose proof Hin as Hin'. apply merged_data_In in Hin'.
  destruct Hin' as [e [He Hme]]. apply long_data_In in He.
  destruct He as [fs [src [r [Hentry [Hcol [Hr He]]]]]].
  apply merge_row_left in Hme. destruct Hme as [key [uuid [type Hj]]].
  subst e m0. exists r, fs, src, key, uuid, type. cbn zeta. auto 10.
Qed.


(** X8.  Every final row is SINGLE or MARRIED, and its ChildrenCount is
    empty or one of the digits 0 to 5; it is never empty when neither
    threshold is set (a threshold of 0 counts as not set). *)
Theorem marital_status_and_children (log : list message)
        (missing : list Missing.row) (final : list Final.row) :
  process_excel_workflow round2 raw_data location_data
    valid_from_date valid_to_date remove_min_max
    single_max_children married_max_children
  = (log, Returned missing final) ->
  forall f, In f final ->
    In (Final.maritalStatus f) ["SINGLE"; "MARRIED"] /\
    In (Final.numberOfChildren f) [""; "0"; "1"; "2"; "3"; "4"; "5"] /\
    (truthy single_max_children = false ->
     truthy married_max_children = false ->
     Final.numberOfChildren f <> "").
Proof.
  intros Hret f Hf.
  destruct (final_rows_from_base round2 _ _ _ _ _ _ _ _ _ _ Hret f Hf)
    as [m [Hm Heq]].
  destruct (base_row_source m Hm)
    as [r [fs [src [key [uuid [type
        [_ [Hentry [_ [_ [_ [Hother _]]]]]]]]]]]].
  pose proof (f_equal Merged.family_status Hother) as Hfs. simpl in Hfs.
  destruct (family_status_columns fs src Hentry) as [Hms Hnc].
  set (w := wide_row valid_from_date valid_to_date m) in *.
  assert (Hw : Wide.maritalStatus w = upper (remove_trailing_digits fs) /\
               Wide.numberOfChildren w = extract_children_count fs)
    by (subst w; unfold wide_row; simpl; rewrite Hfs; auto).
  destruct Hw as [Hw1 Hw2].
  destruct (adjust_row_children "SINGLE" single_max_children w)
    as [Hs1 [Hs2 Hs3]].
  destruct (adjust_row_children "MARRIED" married_max_children
              (adjust_row "SINGLE" single_max_children w))
    as [Hm1 [Hm2 Hm3]].
  subst f. unfold final_row.
  cbn [Final.maritalStatus Final.numberOfChildren].
  split; [now rewrite Hm1, Hs1, Hw1 |]. split.
  - destruct Hm2 as [Hm2 | Hm2]; rewrite Hm2; [now left |].
    destruct Hs2 as [Hs2 | Hs2]; rewrite Hs2; [now left |].
    rewrite Hw2. now right.
  - intros Ht1 Ht2. rewrite (Hm3 Ht2), (Hs3 Ht1), Hw2.
    intros Hempty. rewrite Hempty in Hnc. simpl in Hnc.
    repeat (destruct Hnc as [Hnc | Hnc]; [discriminate |]). contradiction.
Qed.

(** X9.  Every final row has a LocationId: the empty string on a row
    with the key XYNA, the identifier found by the join on any other
    row.  A record that found no identifier and is not XYNA never
    reaches the final table. *)
Theorem final_rows_located (log : list message)
        (missing : list Missing.row) (final : list Final.row) :
  process_excel_workflow round2 raw_data location_data
    valid_from_date valid_to_date remove_min_max
    single_max_children married_max_children
  = (log, Returned missing final) ->
  forall f, In f final ->
    Final.locationUuid f <> None /\
    (Final.serviceType f = "" ->
     exists l, In l (Mapping.rows location_data) /\
               Mapping.location_uuid l = Final.locationUuid f /\
               Mapping.location_type l = Final.locationType f).
Proof.
  intros Hret f Hf.
  destruct (final_rows_from_base round2 _ _ _ _ _ _ _ _ _ _ Hret f Hf)
    as [m [Hm Heq]].
  apply final_base_origin in Hm.
  destruct Hm as [m0 [Hin [Hmask [Hother _]]]].
  destruct (adjusted_columns single_max_children married_max_children
              (wide_row valid_from_date valid_to_date m)) as [Hb [Hs _]].
  pose proof (f_equal Merged.location_uuid Hother) as Hu.
  pose proof (f_equal Merged.location_type Hother) as Ht.
  pose proof (f_equal Merged.is_XYNA Hother) as Hx.
  simpl in Hu, Ht, Hx.
  subst f. unfold final_row.
  cbn [Final.locationUuid Final.locationType Final.serviceType].
  rewrite Hb, Hs. unfold wide_row. cbn [Wide.base Wide.serviceType].
  destruct (Merged.is_XYNA m) eqn:Hxm; cbn [Bool.eqb].
  - split; [discriminate | intros; discriminate].
  - rewrite Hu, Ht.
    assert (Hnotna : notna (Merged.location_uuid m0) = true).
    { destruct Hmask as [H | H]; [exact H |].
      unfold xyna_mask in H. rewrite <- Hx in H. discriminate. }
    split; [destruct (Merged.location_uuid m0); [discriminate | discriminate]
           |].
    intros _. apply merged_data_In in Hin. destruct Hin as [e [_ Hme]].
    apply merge_row_In in Hme.
    destruct Hme as [[Hme _] | [l [Hl [_ Hme]]]]; subst m0.
    + discriminate.
    + exists l. auto.
Qed.

(** X10.  Every final row carries the two date texts as they were
    supplied, and the empty string for a date that was not supplied. *)
Theorem dates_carried (log : list message)
        (missing : list Missing.row) (final : list Final.row) :
  process_excel_workflow round2 raw_data location_data
    valid_from_date valid_to_date remove_min_max
    single_max_children married_max_children
  = (log, Returned missing final) ->
  forall f, In f final ->
    Final.validFromDate f = fillna "" valid_from_date /\
    Final.validToDate f = fillna "" valid_to_date.
Proof.
  intros Hret f Hf.
  destruct (final_rows_from_base round2 _ _ _ _ _ _ _ _ _ _ Hret f Hf)
    as [m [_ Heq]].
  set (w := wide_row valid_from_date valid_to_date m) in *.
  assert (H : Wide.set_numberOfChildren ""
                (adjust_row "MARRIED" married_max_children
                   (adjust_row "SINGLE" single_max_children w))
              = Wide.set_numberOfChildren "" w)
    by now rewrite !adjust_row_other_columns.
  pose proof (f_equal Wide.validFromDate H) as H1.
  pose proof (f_equal Wide.validToDate H) as H2.
  simpl in H1, H2. subst f. unfold final_row.
  cbn [Final.validFromDate Final.validToDate]. rewrite H1, H2.
  subst w. unfold wide_row, date_column. simpl.
  destruct valid_from_date as [a|], valid_to_date as [b|]; simpl;
    try destruct (String.eqb a "") eqn:Ea;
    try destruct (String.eqb b "") eqn:Eb;
    try (apply String.eqb_eq in Ea; subst a);
    try (apply String.eqb_eq in Eb; subst b); auto.
Qed.
End Carried.


Lemma marital_status_and_children_witness :
  exists final : list Final.row,
    forall f, In f final ->
      In (Final.maritalStatus f) ["SINGLE"; "MARRIED"] /\
      In (Final.numberOfChildren f) [""; "0"; "1"; "2"; "3"; "4"; "5"] /\
      (truthy (Some 4%Z) = false -> truthy None = false ->
       Final.numberOfChildren f <> "").
Proof.
  eexists.
  refine (marital_status_and_children round_half_even
            Sample.raw_table Sample.mapping_table
            None None false (Some 4%Z) None _ _ _ _).
  cbv. reflexivity.
Defined.

Lemma final_rows_located_witness :
  exists final : list Final.row,
    forall f, In f final ->
      Final.locationUuid f <> None /\
      (Final.serviceType f = "" ->
       exists l, In l (Mapping.rows Sample.mapping_table) /\
                 Mapping.location_uuid l = Final.locationUuid f /\
                 Mapping.location_type l = Final.locationType f).
Proof.
  eexists.
  refine (final_rows_located round_half_even
            Sample.raw_table Sample.mapping_table
            None None true None None _ _ _ _).
  cbv. reflexivity.
Defined.

Lemma dates_carried_witness :
  exists final : list Final.row,
    forall f, In f final ->
      Final.validFromDate f = "2025-07-01T00:00:00" /\
      Final.validToDate f = "".
Proof.
  eexists.
  refine (dates_carried round_half_even
            Sample.raw_table Sample.mapping_table
            (Some "2025-07-01T00:00:00") None false None None _ _ _ _).
  cbv. reflexivity.
Defined.

(* ================================================================ *)
(** * Further properties: expansion, empty mapping, metrics *)
(* ================================================================ *)

Lemma filter_length_perm {A : Type} (p : A -> bool) (l l' : list A) :
  Permutation l l' -> length (filter p l) = length (filter p l').
Proof.
  intros H. induction H as [| x l l' _ IH | x y l | l l' l'' _ IH1 _ IH2].
  - reflexivity.
  - simpl. destruct (p x); simpl; now rewrite IH.
  - simpl. destruct (p x), (p y); reflexivity.
  - now rewrite IH1.
Qed.

Lemma filter_map_length {A B : Type} (p : B -> bool) (g : A -> B)
      (l : list A) :
  length (filter p (map g l)) = length (filter (fun x => p (g x)) l).
Proof.
  induction l as [|x t IH]; [reflexivity |].
  simpl. destruct (p (g x)); simpl; now rewrite IH.
Qed.

Lemma merged_data_no_mapping (long : list Long.row) :
  merged_data long [] = map unmatched_row long.
Proof.
  unfold merged_data. induction long as [|e t IH]; [reflexivity |].
  simpl. now rewrite IH.
Qed.

(** X11.  The expansion has one record per raw row and alias entry whose
    source column is in the table: never more than twelve per raw row,
    and exactly twelve when the table has all seven value columns. *)
Theorem expansion_size (columns : list string) (rows : list Raw.row)
        (long : list Long.row) :
  expand columns rows = inr long ->
  length long = length (present_entries columns) * length rows /\
  length long <= 12 * length rows /\
  ((forall fs src, In (fs, src) family_status_mapping -> In src columns) ->
   length long = 12 * length rows).
Proof.
  intros Hexp. apply expand_inr in Hexp. subst long.
  rewrite long_data_length. split; [reflexivity |].
  assert (Hle : length (present_entries columns) <= 12).
  { unfold present_entries.
    apply (Nat.le_trans _ _ _ (filter_length_le _ _)). reflexivity. }
  split; [now apply Nat.mul_le_mono_r |].
  intros Hall.
  assert (Hp : present_entries columns = family_status_mapping).
  { unfold present_entries. apply forallb_filter_id.
    apply forallb_forall. intros [fs src] Hin. apply has_column_In.
    simpl. now apply (Hall fs src). }
  now rewrite Hp.
Qed.

Lemma expansion_size_witness :
  length (long_data Sample.header [Sample.xy; Sample.us]) = 24.
Proof.
  exact (proj1 (expansion_size Sample.header [Sample.xy; Sample.us]
                               _ eq_refl)).
Defined.

Section Metrics.
Variable round2 : Q -> Q.
Variables (raw_data : Raw.table) (location_data : Mapping.table).
Variables (valid_from_date valid_to_date : option string).
Variable remove_min_max : bool.
Variables (single_max_children married_max_children : option Z).

Let long := long_data (clean_columns (Raw.columns raw_data))
                      (Raw.rows raw_data).
Let merged := merged_data long (Mapping.rows location_data).
Let base := final_base round2 remove_min_max merged.

Lemma returned_lengths (log : list message)
      (missing : list Missing.row) (final : list Final.row) :
  process_excel_workflow round2 raw_data location_data
    valid_from_date valid_to_date remove_min_max
    single_max_children married_max_children
  = (log, Returned missing final) ->
  length final
  = length (successfully_matched merged) + length (xyna_records merged) /\
  length missing = length (missing_locations merged).
Proof.
  intros Hret. apply process_returned in Hret.
  destruct Hret as [_ [Hmissing Hfinal]]. fold long merged in Hmissing, Hfinal.
  split.
  - rewrite Hfinal, (Permutation_length (final_output_perm _ _ _ _ _)).
    now rewrite wide_output_rows, !length_map, final_base_length.
  - rewrite Hmissing. unfold missing_output.
    destruct (missing_locations merged) as [|m t]; [reflexivity |].
    cbn [length Nat.ltb Nat.leb].
    now rewrite (Permutation_length (sort_values_perm _ _)), length_map.
Qed.

(** X12.  With a mapping table that has its columns and no rows, nothing
    is matched: the final table holds the XYNA records only, each with
    the service type GEC_POLICY, every other record is in the
    missing-locations table, and the two tables together have exactly
    one row per expanded record. *)
Theorem empty_mapping_table (log : list message)
        (missing : list Missing.row) (final : list Final.row) :
  Mapping.rows location_data = [] ->
  process_excel_workflow round2 raw_data location_data
    valid_from_date valid_to_date remove_min_max
    single_max_children married_max_children
  = (log, Returned missing final) ->
  length final + length missing = length long /\
  (forall f, In f final -> Final.serviceType f = "GEC_POLICY") /\
  (forall x, In x missing -> Missing.location_key x <> Some "XYNA").
Proof.
  intros Hrows Hret.
  assert (Hmerged : merged = map unmatched_row long)
    by (unfold merged; rewrite Hrows; apply merged_data_no_mapping).
  assert (Hnone : forall m, In m merged -> Merged.location_uuid m = None).
  { intros m Hm. rewrite Hmerged in Hm. apply in_map_iff in Hm.
    destruct Hm as [e [He _]]. now subst m. }
  split; [| split].
  - destruct (returned_lengths _ _ _ Hret) as [Hf Hm]. rewrite Hf, Hm.
    rewrite <- (length_map unmatched_row long), <- Hmerged.
    unfold successfully_matched, xyna_records, missing_locations.
    apply partition_lengths. intros m Hin.
    unfold missing_mask, matched_mask, isna. rewrite (Hnone m Hin).
    destruct (xyna_mask m); reflexivity.
  - intros f Hf.
    destruct (final_rows_from_base round2 _ _ _ _ _ _ _ _ _ _ Hret f Hf)
      as [m [Hm Heq]].
    apply final_base_origin in Hm.
    destruct Hm as [m0 [Hin [Hmask [Hother _]]]].
    destruct (adjusted_columns single_max_children married_max_children
                (wide_row valid_from_date valid_to_date m)) as [_ [Hs _]].
    pose proof (f_equal Merged.is_XYNA Hother) as Hx. simpl in Hx.
    subst f. unfold final_row. cbn [Final.serviceType]. rewrite Hs.
    unfold wide_row. cbn [Wide.serviceType]. rewrite Hx.
    destruct Hmask as [H | H].
    + unfold matched_mask in H. fold long merged in Hin.
      rewrite (Hnone m0 Hin) in H. discriminate.
    + unfold xyna_mask in H. now rewrite H.
  - intros x Hx Hkey. apply process_returned in Hret.
    destruct Hret as [_ [Hmissing _]]. fold long merged in Hmissing.
    subst missing. unfold missing_output in Hx.
    destruct (missing_locations merged) as [|m0 t] eqn:Hml;
      [contradiction |].
    cbn [length Nat.ltb Nat.leb] in Hx. apply sort_values_In in Hx.
    apply in_map_iff in Hx. destruct Hx as [m [Heq Hm]]. subst x.
    rewrite <- Hml in Hm. apply filter_In in Hm. destruct Hm as [Hm Hmask].
    rewrite Hmerged in Hm. apply in_map_iff in Hm.
    destruct Hm as [e [He Hin]]. subst m.
    apply long_data_In in Hin.
    destruct Hin as [fs [src [r [_ [_ [_ He]]]]]]. subst e.
    unfold missing_mask, xyna_mask in Hmask. simpl in Hmask, Hkey.
    apply cell_eqb_eq in Hkey. rewrite Hkey in Hmask. discriminate.
Qed.

(** X13.  The metric XYNA/GEC Records that the caller shows is the
    number of rows of the base table (Matched and Exception after the
    min/max removal) that carry the XYNA flag. *)
Theorem gec_metric_counts_exceptions (log : list message)
        (missing : list Missing.row) (final : list Final.row) :
  process_excel_workflow round2 raw_data location_data
    valid_from_date valid_to_date remove_min_max
    single_max_children married_max_children
  = (log, Returned missing final) ->
  gec_policy_count final = length (filter Merged.is_XYNA base).
Proof.
  intros Hret. pose proof Hret as Hret'. apply process_returned in Hret'.
  destruct Hret' as [_ [_ Hfinal]]. fold long merged base in Hfinal.
  assert (Hcount :
            length (filter (fun f => String.eqb (Final.serviceType f)
                                                "GEC_POLICY") final)
            = length (filter Merged.is_XYNA base)).
  { rewrite Hfinal.
    rewrite (filter_length_perm _ _ _ (final_output_perm _ _ _ _ _)).
    rewrite wide_output_rows, map_map, filter_map_length.
    f_equal. apply filter_ext. intros m.
    destruct (adjusted_columns single_max_children married_max_children
                (wide_row valid_from_date valid_to_date m)) as [_ [Hs _]].
    unfold final_row. cbn [Final.serviceType]. rewrite Hs.
    unfold wide_row. cbn [Wide.serviceType].
    destruct (Merged.is_XYNA m); reflexivity. }
  unfold gec_policy_count. destruct final as [|f t].
  - simpl in *. exact Hcount.
  - exact Hcount.
Qed.
End Metrics.

Lemma empty_mapping_table_witness :
  exists (final : list Final.row) (missing : list Missing.row),
    length final + length missing = 24.
Proof.
  eexists. eexists.
  refine (proj1 (empty_mapping_table round_half_even
                   Sample.raw_table Sample.empty_mapping
                   None None false None None _ _ _ eq_refl _)).
  cbv. reflexivity.
Defined.

Lemma gec_metric_counts_exceptions_witness :
  exists final : list Final.row, gec_policy_count final = 24.
Proof.
  eexists.
  refine (gec_metric_counts_exceptions round_half_even
            Sample.raw_table Sample.mapping_table
            None None true None None _ _ _ _).
  cbv. reflexivity.
Defined.

(* ================================================================ *)
(** * Further properties: headers, keys and notes *)
(* ================================================================ *)

Lemma strip_required (c : string) :
  In c required_cols_raw \/ In c required_cols_mapping -> strip c = c.
Proof.
  unfold required_cols_raw, required_cols_mapping. simpl. intros [H | H];
    repeat (destruct H as [H | H]; [subst c; reflexivity |]);
    contradiction.
Qed.

Lemma clean_columns_keeps (c : string) (columns : list string) :
  In c required_cols_raw \/ In c required_cols_mapping ->
  In c columns -> In c (clean_columns columns).
Proof.
  intros Hreq Hin. unfold clean_columns. rewrite <- (strip_required c Hreq).
  now apply in_map.
Qed.

(** X14.  Validation reads the header before it is trimmed, and trimming
    cannot lose a required column: a mapping table that passes
    validation still has its three columns afterwards, and every
    required raw column that is absent after trimming is listed in the
    warning. *)
Theorem validation_survives_trimming (raw_columns mapping_columns
                                      : list string) :
  (missing_cols required_cols_mapping mapping_columns = [] ->
   missing_cols required_cols_mapping (clean_columns mapping_columns) = []) /\
  (forall c, In c (missing_cols required_cols_raw (clean_columns raw_columns))
             -> In c (missing_cols required_cols_raw raw_columns)).
Proof.
  split.
  - intros Hnone.
    destruct (missing_cols required_cols_mapping
                           (clean_columns mapping_columns)) as [|c cs] eqn:Hm;
      [reflexivity |].
    exfalso.
    assert (Hc : In c (missing_cols required_cols_mapping
                                    (clean_columns mapping_columns)))
      by (rewrite Hm; now left).
    apply missing_cols_In in Hc. destruct Hc as [Hreq Hmiss].
    apply Hmiss. apply clean_columns_keeps; [now right |].
    destruct (in_dec string_dec c mapping_columns) as [Hin | Hout];
      [assumption |].
    exfalso.
    assert (H : In c (missing_cols required_cols_mapping mapping_columns))
      by (apply missing_cols_In; auto).
    rewrite Hnone in H. contradiction.
  - intros c Hc. apply missing_cols_In in Hc. destruct Hc as [Hreq Hmiss].
    apply missing_cols_In. split; [assumption |].
    intros Hin. apply Hmiss. apply clean_columns_keeps; auto.
Qed.

Lemma lstrip_head (s : string) (c : ascii) (t : string) :
  lstrip s = String c t -> is_space c = false.
Proof.
  induction s as [|d s' IH]; [discriminate |].
  simpl. destruct (is_space d) eqn:Hd; [exact IH |].
  intros H. inversion H. now subst.
Qed.

Lemma rstrip_idem (s : string) : rstrip (rstrip s) = rstrip s.
Proof.
  induction s as [|c s' IH]; [reflexivity |].
  cbn [rstrip]. destruct (rstrip s') as [|d t] eqn:Hr.
  - destruct (is_space c) eqn:Hc; [reflexivity |].
    simpl. now rewrite Hc.
  - change (rstrip (String c (String d t)))
      with (match rstrip (String d t) with
            | EmptyString =>
                if is_space c then EmptyString else String c EmptyString
            | String x u => String c (String x u)
            end).
    now rewrite IH.
Qed.

Lemma rstrip_head (c : ascii) (t : string) :
  is_space c = false -> exists t', rstrip (String c t) = String c t'.
Proof.
  intros Hc. cbn [rstrip]. destruct (rstrip t) as [|d u].
  - rewrite Hc. eauto.
  - eauto.
Qed.

Lemma strip_idem (s : string) : strip (strip s) = strip s.
Proof.
  unfold strip. destruct (lstrip s) as [|c t] eqn:Hl; [reflexivity |].
  pose proof (lstrip_head s c t Hl) as Hc.
  destruct (rstrip_head c t Hc) as [t' Ht'].
  rewrite Ht'. cbn [lstrip]. rewrite Hc, <- Ht'. apply rstrip_idem.
Qed.

(** X15.  Trimming the header is idempotent, and a trimmed name neither
    starts nor ends with white space. *)
Theorem clean_columns_idempotent (columns : list string) :
  clean_columns (clean_columns columns) = clean_columns columns /\
  forall name c t,
    In name (clean_columns columns) ->
    (name = String c t -> is_space c = false) /\
    rstrip name = name.
Proof.
  split.
  - unfold clean_columns. rewrite map_map. apply map_ext. intros s.
    apply strip_idem.
  - intros name c t Hin. unfold clean_columns in Hin.
    apply in_map_iff in Hin. destruct Hin as [s [Hs _]]. subst name.
    split.
    + unfold strip. destruct (lstrip s) as [|d u] eqn:Hl; [discriminate |].
      pose proof (lstrip_head s d u Hl) as Hd.
      destruct (rstrip_head d u Hd) as [u' Hu']. rewrite Hu'.
      intros H. inversion H. now subst.
    + unfold strip. apply rstrip_idem.
Qed.




Lemma append_cancel (p x y : string) :
  (p ++ x)%string = (p ++ y)%string -> x = y.
Proof.
  induction p as [|c p IH]; simpl; intros H; [assumption |].
  inversion H. now apply IH.
Qed.

(** The text that [format_user_notes] puts after the prefix. *)
Lemma format_user_notes_body (k : string) :
  format_user_notes (Some k)
  = ("MercerLocation: " ++
     match k with
     | String a (String b rest) =>
         if String.eqb k "XYNA" then "GEC"
         else String a (String b (String "-" rest))
     | _ => k
     end)%string.
Proof.
  unfold format_user_notes. cbn [cell_eqb py_str fillna].
  destruct k as [|a [|b rest]].
  - reflexivity.
  - assert (H : String.eqb (String a "") "XYNA" = false).
    { apply String.eqb_neq. intros H. inversion H. }
    rewrite H. reflexivity.
  - destruct (String.eqb (String a (String b rest)) "XYNA"); reflexivity.
Qed.

(** X17.  The notes tell the key: two present location keys with the
    same UserNotes are the same key. *)
Theorem user_notes_injective (k k' : string) :
  format_user_notes (Some k) = format_user_notes (Some k') -> k = k'.
Proof.
  rewrite !format_user_notes_body. intros H. apply append_cancel in H.
  destruct k as [|a [|b rest]], k' as [|a' [|b' rest']];
    repeat match goal with
           | H0 : context [if String.eqb ?x "XYNA" then _ else _] |- _ =>
               let E := fresh "E" in destruct (String.eqb x "XYNA") eqn:E
           end;
    repeat match goal with
           | E : String.eqb _ _ = true |- _ => apply String.eqb_eq in E
           end;
    try congruence; inversion H; reflexivity.
Qed.

Lemma user_notes_injective_witness :
  format_user_notes (Some "USNA") = "MercerLocation: US-NA" /\
  "USNA" = "USNA".
Proof.
  split; [reflexivity |].
  exact (user_notes_injective "USNA" "USNA" eq_refl).
Defined.

(* ================================================================ *)
(** * Further properties: the caller's options *)
(* ================================================================ *)






(** X20.  The suffix of the download file names tells which options were
    in effect: two calls give the same suffix only when they agree on
    whether a date was set, whether min/max removal was on and whether a
    threshold was set. *)
Theorem filename_suffix_injective
        (vf vt vf' vt' : option string) (r r' : bool)
        (s m s' m' : option Z) :
  filename_suffix vf vt r s m = filename_suffix vf' vt' r' s' m' ->
  truthy_str vf || truthy_str vt = truthy_str vf' || truthy_str vt' /\
  r = r' /\
  truthy s || truthy m = truthy s' || truthy m'.
Proof.
  unfold filename_suffix.
  destruct (truthy_str vf || truthy_str vt),
    (truthy_str vf' || truthy_str vt'), r, r',
    (truthy s || truthy m), (truthy s' || truthy m');
    simpl; intros H; try discriminate; auto.
Qed.

Lemma filename_suffix_injective_witness :
  filename_suffix (Some "2025-07-01T00:00:00") None true (Some 4%Z) None
  = "_Spendable_WithDates_MinMaxRemoved_UnlimitedChildren" /\
  true = true.
Proof.
  split; [reflexivity |].
  exact (proj1 (proj2 (filename_suffix_injective
                         (Some "2025-07-01T00:00:00") None
                         None (Some "2025-12-31T00:00:00")
                         true true (Some 4%Z) None None (Some 5%Z)
                         eq_refl))).
Defined.

(* ================================================================ *)
(** * Further properties: what the min/max removal takes away *)
(* ================================================================ *)

Lemma series_count_all {A : Type} (f : A -> option Q) (l : list A) :
  (forall x, In x l -> notna (f x) = true) ->
  series_count (map f l) = length l.
Proof.
  unfold series_count. induction l as [|x t IH]; intros H; [reflexivity |].
  simpl. rewrite (H x (or_introl eq_refl)). simpl. f_equal.
  apply IH. intros y Hy. apply H. now right.
Qed.

Lemma series_count_positive (l : list (option Q)) :
  0 < series_count l -> exists v, series_min l = Some v.
Proof.
  intros H. destruct (series_min l) as [v|] eqn:Hmin; [eauto |].
  exfalso. pose proof (series_min_None l Hmin) as Hnone.
  unfold series_count in H.
  destruct (filter notna l) as [|o t] eqn:Hf; [simpl in H; lia |].
  assert (Hin : In o (filter notna l)) by (rewrite Hf; now left).
  apply filter_In in Hin. destruct Hin as [Hin Ho].
  destruct o as [x|]; [| discriminate]. exact (Hnone x Hin).
Qed.

Section TrimmingEdges.
Variable round2 : Q -> Q.
Hypothesis round2_idem : forall x, (round2 (round2 x) == round2 x)%Q.

(** X21.  When all rows of a group of two or more have the same rounded
    GrossFrom, every one of them is at the minimum: the removal leaves
    the group without any GrossFrom. *)
Theorem uniform_group_loses_all (combined : list Merged.row)
        (m : Merged.row) (a : Q) :
  In m combined ->
  grossFrom_rounded round2 m = Some a ->
  let group := group_rows (group_key m) combined in
  (forall m2, In m2 group ->
              exists v2, grossFrom_rounded round2 m2 = Some v2 /\
                         (v2 == a)%Q) ->
  1 < length group ->
  forall m2, In m2 group ->
    Merged.GrossFrom (remove_row round2 (group_stats round2 combined) m2)
    = None.
Proof.
  intros Hin Ha group Hsame Hlen m2 H2.
  assert (H2c : In m2 combined)
    by (unfold group, group_rows in H2; apply filter_In in H2; tauto).
  assert (Hkey : group_key m2 = group_key m).
  { unfold group, group_rows in H2. apply filter_In in H2.
    destruct H2 as [_ H2]. now apply String.eqb_eq in H2. }
  destruct (Hsame m2 H2) as [v2 [Hv2 Heq]].
  rewrite remove_row_GrossFrom.
  assert (Hmask : min_mask round2 (group_stats round2 combined) m2 = true).
  { apply (min_mask_rule round2 round2_idem combined m2 v2 H2c Hv2).
    rewrite Hkey. fold group. split.
    - intros m3 v3 H3 Hv3. destruct (Hsame m3 H3) as [v3' [Hv3' Heq3]].
      rewrite Hv3 in Hv3'. inversion Hv3'. subst v3'.
      apply Qle_lteq. right.
      apply Qeq_trans with a; [assumption | now apply Qeq_sym].
    - rewrite series_count_all; [assumption |].
      intros x Hx. destruct (Hsame x Hx) as [vx [Hvx _]].
      unfold grossFrom_rounded, round_cell in Hvx.
      destruct (Merged.GrossFrom x); [reflexivity | discriminate]. }
  now rewrite Hmask.
Qed.

(** X22.  Whenever more than one row of a group has a GrossFrom, the
    removal takes it from at least one of them. *)
Theorem some_row_loses_minimum (combined : list Merged.row) (m : Merged.row) :
  In m combined ->
  let group := group_rows (group_key m) combined in
  1 < series_count (map Merged.GrossFrom group) ->
  exists m2,
    In m2 group /\
    Merged.GrossFrom m2 <> None /\
    Merged.GrossFrom (remove_row round2 (group_stats round2 combined) m2)
    = None.
Proof.
  intros Hin group Hcount.
  assert (Hpos : 0 < series_count (map (grossFrom_rounded round2) group)).
  { change (map (grossFrom_rounded round2) group)
      with (map (fun m0 => round_cell round2 (Merged.GrossFrom m0)) group).
    rewrite series_count_rounded. lia. }
  destruct (series_count_positive _ Hpos) as [v Hmin].
  destruct (series_min_Some _ v Hmin) as [Hv Hle].
  apply in_map_iff in Hv. destruct Hv as [m2 [Hv2 H2]].
  assert (H2c : In m2 combined)
    by (unfold group, group_rows in H2; apply filter_In in H2; tauto).
  assert (Hkey : group_key m2 = group_key m).
  { unfold group, group_rows in H2. apply filter_In in H2.
    destruct H2 as [_ H2]. now apply String.eqb_eq in H2. }
  exists m2. split; [assumption |]. split.
  - unfold grossFrom_rounded, round_cell in Hv2.
    destruct (Merged.GrossFrom m2); [discriminate | discriminate].
  - rewrite remove_row_GrossFrom.
    assert (Hmask : min_mask round2 (group_stats round2 combined) m2 = true).
    { apply (min_mask_rule round2 round2_idem combined m2 v H2c Hv2).
      rewrite Hkey. fold group. split; [| assumption].
      intros m3 v3 H3 Hv3. apply Hle. rewrite <- Hv3. now apply in_map. }
    now rewrite Hmask.
Qed.
End TrimmingEdges.

Lemma uniform_group_loses_all_witness :
  let row := Sample.matched "L1" (Some (10 # 1)%Q) (Some (50 # 1)%Q) in
  Merged.GrossFrom
    (remove_row round_half_even (group_stats round_half_even [row; row]) row)
  = None.
Proof.
  intros row.
  apply (uniform_group_loses_all round_half_even round_half_even_idem
           [row; row] row (round_half_even (10 # 1)%Q)
           (or_introl eq_refl) eq_refl).
  - intros m2 H2. vm_compute in H2.
    destruct H2 as [H2 | [H2 | []]]; subst m2;
      exists (round_half_even (10 # 1)%Q); split; reflexivity.
  - vm_compute. lia.
  - vm_compute. auto.
Defined.

Lemma some_row_loses_minimum_witness :
  let low := Sample.matched "L1" (Some (10 # 1)%Q) (Some (50 # 1)%Q) in
  let high := Sample.matched "L1" (Some (20 # 1)%Q) (Some (60 # 1)%Q) in
  exists m2,
    In m2 (group_rows (group_key low) [low; high]) /\
    Merged.GrossFrom m2 <> None /\
    Merged.GrossFrom
      (remove_row round_half_even
                  (group_stats round_half_even [low; high]) m2)
    = None.
Proof.
  intros low high.
  apply (some_row_loses_minimum round_half_even round_half_even_idem
           [low; high] low (or_introl eq_refl)).
  vm_compute. lia.
Defined.

(* ================================================================ *)
(** * Further properties: the metric Unlimited Children *)
(* ================================================================ *)

Section Unlimited.
Variable round2 : Q -> Q.
Variables (raw_data : Raw.table) (location_data : Mapping.table).
Variables (valid_from_date valid_to_date : option string).
Variable remove_min_max : bool.
Variables (single_max_children married_max_children : option Z).

Lemma final_row_status (log : list message)
      (missing : list Missing.row) (final : list Final.row) :
  process_excel_workflow round2 raw_data location_data
    valid_from_date valid_to_date remove_min_max
    single_max_children married_max_children
  = (log, Returned missing final) ->
  forall f, In f final ->
    In (Final.maritalStatus f) ["SINGLE"; "MARRIED"] /\
    (truthy single_max_children = false ->
     truthy married_max_children = false ->
     Final.numberOfChildren f <> "").
Proof.
  intros Hret f Hf.
  destruct (final_rows_from_base round2 _ _ _ _ _ _ _ _ _ _ Hret f Hf)
    as [m [Hm Heq]].
  destruct (final_base_derived round2 _ _ _ _ m Hm) as [r [_ Hd]].
  destruct Hd as [fs [src [key [uuid [type [Hentry Hother]]]]]].
  pose proof (f_equal Merged.family_status Hother) as Hfs. simpl in Hfs.
  destruct (family_status_columns fs src Hentry) as [Hms Hnc].
  set (w := wide_row valid_from_date valid_to_date m) in *.
  assert (Hw : Wide.maritalStatus w = upper (remove_trailing_digits fs) /\
               Wide.numberOfChildren w = extract_children_count fs)
    by (subst w; unfold wide_row; simpl; rewrite Hfs; auto).
  destruct Hw as [Hw1 Hw2].
  destruct (adjust_row_children "SINGLE" single_max_children w)
    as [Hs1 [_ Hs3]].
  destruct (adjust_row_children "MARRIED" married_max_children
              (adjust_row "SINGLE" single_max_children w))
    as [Hm1 [_ Hm3]].
  subst f. unfold final_row.
  cbn [Final.maritalStatus Final.numberOfChildren].
  split; [now rewrite Hm1, Hs1, Hw1 |].
  intros Ht1 Ht2. rewrite (Hm3 Ht2), (Hs3 Ht1), Hw2.
  intros Hempty. rewrite Hempty in Hnc. simpl in Hnc.
  repeat (destruct Hnc as [Hnc | Hnc]; [discriminate |]). contradiction.
Qed.

(** X23.  The metric Unlimited Children that the caller shows is the
    number of final rows with an empty ChildrenCount, its test on the
    marital status holding for every row; it is 0 when no threshold is
    set. *)
Theorem unlimited_metric (log : list message)
        (missing : list Missing.row) (final : list Final.row) :
  process_excel_workflow round2 raw_data location_data
    valid_from_date valid_to_date remove_min_max
    single_max_children married_max_children
  = (log, Returned missing final) ->
  unlimited_children final
  = length (filter (fun f => String.eqb (Final.numberOfChildren f) "") final)
  /\
  (truthy single_max_children = false ->
   truthy married_max_children = false ->
   unlimited_children final = 0).
Proof.
  intros Hret. pose proof (final_row_status _ _ _ Hret) as Hstatus.
  assert (Hfilter :
            forall l : list Final.row,
              (forall f, In f l ->
                         In (Final.maritalStatus f) ["SINGLE"; "MARRIED"]) ->
              filter (fun f =>
                        String.eqb (Final.numberOfChildren f) ""
                        && existsb (String.eqb (Final.maritalStatus f))
                                   ["SINGLE"; "MARRIED"]) l
              = filter (fun f => String.eqb (Final.numberOfChildren f) "") l).
  { induction l as [|f t IH]; intros H; [reflexivity |].
    assert (Hf : existsb (String.eqb (Final.maritalStatus f))
                         ["SINGLE"; "MARRIED"] = true).
    { apply existsb_exists. exists (Final.maritalStatus f).
      split; [apply H; now left | apply String.eqb_refl]. }
    cbn [filter]. rewrite Hf, andb_true_r, IH; [reflexivity |].
    intros g Hg. apply H. now right. }
  assert (Hcount :
            unlimited_children final
            = length (filter (fun f => String.eqb (Final.numberOfChildren f) "")
                             final)).
  { unfold unlimited_children. rewrite Hfilter.
    - destruct final; reflexivity.
    - intros f Hf. exact (proj1 (Hstatus f Hf)). }
  split; [exact Hcount |].
  intros Ht1 Ht2. rewrite Hcount.
  assert (Hnone : forall l : list Final.row,
             (forall f, In f l -> Final.numberOfChildren f <> "") ->
             filter (fun f => String.eqb (Final.numberOfChildren f) "") l = []).
  { induction l as [|f t IH]; intros H; [reflexivity |].
    cbn [filter].
    assert (Hf : String.eqb (Final.numberOfChildren f) "" = false)
      by (apply String.eqb_neq; apply H; now left).
    rewrite Hf. apply IH. intros g Hg. apply H. now right. }
  rewrite Hnone; [reflexivity |].
  intros f Hf. exact (proj2 (Hstatus f Hf) Ht1 Ht2).
Qed.
End Unlimited.

Lemma unlimited_metric_witness :
  exists final : list Final.row,
    unlimited_children final
    = length (filter (fun f => String.eqb (Final.numberOfChildren f) "")
                     final).
Proof.
  eexists.
  refine (proj1 (unlimited_metric round_half_even
                   Sample.raw_table Sample.mapping_table
                   None None false (Some 4%Z) (Some 5%Z) _ _ _ _)).
  cbv. reflexivity.
Defined.
